(** * CwaWeather-backend: the reshaper and the route handlers of [server.js]

    A shallow embedding of [src/server.js].

    - The upstream payload is parsed JSON that follows the layout of the
      dataset, [records.location[].weatherElement[].time[].parameter]; any
      property the code reads may be absent.  An absent property reads as
      JavaScript's [undefined], which is [None] here, and reading a property
      of [undefined] throws a [TypeError].
    - A leaf value that is present (a name, a time, a message) is taken to
      be a string; the body of an upstream reply is a JSON object or [null].
    - Exceptions are explicit: a computation is a [result].
    - A handler is an [async] function: it runs in a [World] that answers
      the request sent to the upstream, and the requests it sends are logged.
    - [console.error] and [console.log] are not modelled. *)

From Stdlib Require Import String Ascii List Arith Bool Lia Permutation.
Import ListNotations.
Local Open Scope string_scope.
Local Open Scope list_scope.
Local Open Scope nat_scope.

(** * Part I: the program *)

(** ** The upstream payload *)

Module CWA.

Record ParameterObj : Type := mkParameter {
  parameterName : option string
}.

Record TimeEntry : Type := mkTime {
  startTime : option string;
  endTime : option string;
  parameter : option ParameterObj
}.

Record Element : Type := mkElement {
  elementName : option string;
  time : option (list TimeEntry)
}.

Record Location : Type := mkLocation {
  locationName : option string;
  weatherElement : option (list Element)
}.

Record Records : Type := mkRecords {
  datasetDescription : option string;
  location : option (list Location)
}.

(** The body of an upstream reply, as the handlers read it: [data.records]
    on success, [data.message] on failure. *)
Record Body : Type := mkBody {
  records : option Records;
  message : option string
}.

(** The [response] of axios: what [await axios.get] yields, and the
    [error.response] of a rejected request.  [data] is [None] when the body
    of the reply is JSON's [null]. *)
Record Response : Type := mkResponse {
  status : nat;
  data : option Body
}.

End CWA.

(** ** Exceptions and completion *)

Module JS.

(** The values [server.js] can find in a [catch (error)] clause. *)
Inductive Exn : Type :=
| TypeError                      (* property read on [undefined] *)
| URIError                       (* malformed escape in [decodeURIComponent] *)
| AxiosError (response : option CWA.Response).

(** [error.response]. *)
Definition response (error : Exn) : option CWA.Response :=
  match error with
  | AxiosError r => r
  | TypeError | URIError => None
  end.

(** A computation either completes normally or throws. *)
Inductive result (A : Type) : Type :=
| Ok (a : A)
| Throw (e : Exn).
Arguments Ok {A} a.
Arguments Throw {A} e.

Definition bind {A B} (m : result A) (k : A -> result B) : result B :=
  match m with
  | Ok a => k a
  | Throw e => Throw e
  end.

(** [o.p] where [o] may be [undefined]: the read throws a [TypeError]. *)
Definition deref {A} (o : option A) : result A :=
  match o with
  | Some a => Ok a
  | None => Throw TypeError
  end.

(** [v + suffix] for a string-or-undefined [v]: string concatenation after
    [ToString], which renders [undefined] as the nine letters below. *)
Definition concat (v : option string) (suffix : string) : string :=
  match v with
  | Some s => s ++ suffix
  | None => "undefined" ++ suffix
  end.

(** Truthiness of a string-or-undefined value: [undefined] and the empty
    string are falsy. *)
Definition truthy (v : option string) : bool :=
  match v with
  | Some "" => false
  | Some _ => true
  | None => false
  end.

(** [v || fallback] for a string-or-undefined [v]. *)
Definition or_else (v : option string) (fallback : string) : string :=
  match v with
  | Some s => if truthy v then s else fallback
  | None => fallback
  end.

End JS.

Import JS.

Declare Scope js_scope.
Delimit Scope js_scope with js.
Notation "x <- m ;; k" := (JS.bind m (fun x => k))
  (at level 61, m at next level, right associativity) : js_scope.
Local Open Scope js_scope.

(** ** The reshaper *)

(** One output record of [parseWeatherElements]. *)
Record Forecast : Type := mkForecast {
  startTime : option string;
  endTime : option string;
  weather : option string;
  rain : option string;
  minTemp : option string;
  maxTemp : option string;
  comfort : option string;
  windSpeed : option string
}.

(** The six [case] labels of the [switch]. *)
Inductive Kind : Type := Wx | PoP | MinT | MaxT | CI | WS.

Definition label (k : Kind) : string :=
  match k with
  | Wx => "Wx" | PoP => "PoP" | MinT => "MinT"
  | MaxT => "MaxT" | CI => "CI" | WS => "WS"
  end.

(** [switch (element.elementName)]: the first label strictly equal to the
    name, none when no label matches (there is no [default]). *)
Definition kind_of (elementName : option string) : option Kind :=
  match elementName with
  | None => None
  | Some n =>
      if String.eqb n "Wx" then Some Wx
      else if String.eqb n "PoP" then Some PoP
      else if String.eqb n "MinT" then Some MinT
      else if String.eqb n "MaxT" then Some MaxT
      else if String.eqb n "CI" then Some CI
      else if String.eqb n "WS" then Some WS
      else None
  end.

(** The object literal that opens each iteration of the [for] loop. *)
Definition blank (s e : option string) : Forecast :=
  mkForecast s e (Some "") (Some "") (Some "") (Some "") (Some "") (Some "").

(** The assignment in the [case] of kind [k]; [name] is
    [value.parameterName]. *)
Definition assign (k : Kind) (f : Forecast) (name : option string) : Forecast :=
  match k with
  | Wx => mkForecast (startTime f) (endTime f) name (rain f) (minTemp f)
            (maxTemp f) (comfort f) (windSpeed f)
  | PoP => mkForecast (startTime f) (endTime f) (weather f)
            (Some (JS.concat name "%")) (minTemp f) (maxTemp f) (comfort f) (windSpeed f)
  | MinT => mkForecast (startTime f) (endTime f) (weather f) (rain f)
            (Some (JS.concat name "°C")) (maxTemp f) (comfort f) (windSpeed f)
  | MaxT => mkForecast (startTime f) (endTime f) (weather f) (rain f) (minTemp f)
            (Some (JS.concat name "°C")) (comfort f) (windSpeed f)
  | CI => mkForecast (startTime f) (endTime f) (weather f) (rain f) (minTemp f)
            (maxTemp f) name (windSpeed f)
  | WS => mkForecast (startTime f) (endTime f) (weather f) (rain f) (minTemp f)
            (maxTemp f) (comfort f) name
  end.

(** The callback of [weatherElements.forEach], at slot [i]:
    [const value = element.time[i].parameter] comes before the [switch]. *)
Definition visit (i : nat) (forecast : Forecast) (element : CWA.Element)
  : result Forecast :=
  t <- JS.deref (CWA.time element) ;;
  entry <- JS.deref (nth_error t i) ;;
  let value := CWA.parameter entry in
  match kind_of (CWA.elementName element) with
  | Some k =>
      v <- JS.deref value ;;
      Ok (assign k forecast (CWA.parameterName v))
  | None => Ok forecast
  end.

(** [forEach] runs the callback on the elements in order; a throw leaves it. *)
Fixpoint forEach (i : nat) (elements : list CWA.Element) (forecast : Forecast)
  : result Forecast :=
  match elements with
  | [] => Ok forecast
  | element :: rest =>
      forecast' <- visit i forecast element ;;
      forEach i rest forecast'
  end.

(** The body of the [for] loop at index [i]. *)
Definition slot (weatherElements : option (list CWA.Element)) (i : nat)
  : result Forecast :=
  elements <- JS.deref weatherElements ;;
  first <- JS.deref (nth_error elements 0) ;;
  t <- JS.deref (CWA.time first) ;;
  entry <- JS.deref (nth_error t i) ;;
  forEach i elements (blank (CWA.startTime entry) (CWA.endTime entry)).

(** [weatherElements?.[0]?.time?.length || 0]. *)
Definition timeCount (weatherElements : option (list CWA.Element)) : nat :=
  match weatherElements with
  | None => 0
  | Some elements =>
      match nth_error elements 0 with
      | None => 0
      | Some first =>
          match CWA.time first with
          | None => 0
          | Some t => length t
          end
      end
  end.

(** [for (let i = ...; i < timeCount; i++) { ...; forecasts.push(forecast) }]
    with [todo] iterations left. *)
Fixpoint for_loop (body : nat -> result Forecast) (i todo : nat)
    (forecasts : list Forecast) : result (list Forecast) :=
  match todo with
  | 0 => Ok forecasts
  | S todo' =>
      forecast <- body i ;;
      for_loop body (S i) todo' (forecasts ++ [forecast])
  end.

Definition parseWeatherElements (weatherElements : option (list CWA.Element))
  : result (list Forecast) :=
  for_loop (slot weatherElements) 0 (timeCount weatherElements) [].

(** ** The allow-list *)

Definition ALLOWED_CITY_NAMES : list string :=
  [ "基隆市"; "臺北市"; "新北市"; "桃園市"; "新竹市"; "新竹縣"; "苗栗縣";
    "臺中市"; "彰化縣"; "南投縣"; "雲林縣"; "嘉義市"; "嘉義縣"; "臺南市";
    "高雄市"; "屏東縣"; "宜蘭縣"; "花蓮縣"; "臺東縣"; "澎湖縣"; "金門縣";
    "連江縣" ].

(** [Array.prototype.includes] on an array of strings. *)
Definition includes (l : list string) (s : string) : bool :=
  existsb (String.eqb s) l.

(** [Array.prototype.join]. *)
Fixpoint join (sep : string) (l : list string) : string :=
  match l with
  | [] => ""
  | x :: rest =>
      match rest with
      | [] => x
      | _ :: _ => x ++ sep ++ join sep rest
      end
  end.

(** ** [decodeURIComponent]

    Strings are sequences of UTF-8 bytes.  An escape [%XY] stands for one
    byte; the bytes of consecutive escapes must spell one well-formed UTF-8
    sequence, and any malformed escape makes the whole call throw. *)

Module URI.

Definition hex (c : ascii) : option nat :=
  let n := nat_of_ascii c in
  if (48 <=? n) && (n <=? 57) then Some (n - 48)
  else if (65 <=? n) && (n <=? 70) then Some (n - 55)
  else if (97 <=? n) && (n <=? 102) then Some (n - 87)
  else None.

(** One unit of the input: a character taken as it is, or an escaped byte. *)
Inductive Unit : Type :=
| Raw (c : ascii)
| Esc (b : nat).

Fixpoint unescape (s : string) : option (list Unit) :=
  match s with
  | EmptyString => Some []
  | String c rest =>
      if Ascii.eqb c "%" then
        match rest with
        | String h (String l rest') =>
            match hex h, hex l, unescape rest' with
            | Some a, Some b, Some us => Some (Esc (16 * a + b) :: us)
            | _, _, _ => None
            end
        | _ => None
        end
      else option_map (cons (Raw c)) (unescape rest)
  end.

(** For a leading byte: how many continuation bytes follow, and the range
    the first of them must lie in (Unicode, table 3-7). *)
Definition lead (b : nat) : option (nat * (nat * nat)) :=
  if b <? 128 then Some (0, (0, 0))
  else if b <? 194 then None
  else if b <? 224 then Some (1, (128, 191))
  else if b =? 224 then Some (2, (160, 191))
  else if b =? 237 then Some (2, (128, 159))
  else if b <? 240 then Some (2, (128, 191))
  else if b =? 240 then Some (3, (144, 191))
  else if b <? 244 then Some (3, (128, 191))
  else if b =? 244 then Some (3, (128, 143))
  else None.

(** [pending] continuation bytes are still due, the next one in [lo..hi]. *)
Fixpoint utf8 (pending lo hi : nat) (us : list Unit) : option string :=
  match us with
  | [] => match pending with 0 => Some "" | S _ => None end
  | u :: rest =>
      match pending, u with
      | 0, Raw c => option_map (String c) (utf8 0 0 0 rest)
      | 0, Esc b =>
          match lead b with
          | Some (n, (lo', hi')) =>
              option_map (String (ascii_of_nat b)) (utf8 n lo' hi' rest)
          | None => None
          end
      | S p, Esc b =>
          if (lo <=? b) && (b <=? hi)
          then option_map (String (ascii_of_nat b)) (utf8 p 128 191 rest)
          else None
      | S _, Raw _ => None
      end
  end.

End URI.

Definition decodeURIComponent (s : string) : result string :=
  match URI.unescape s with
  | None => Throw URIError
  | Some us =>
      match URI.utf8 0 0 0 us with
      | None => Throw URIError
      | Some r => Ok r
      end
  end.

(** ** The world of a handler: the upstream and the clock *)

(** The query of [axios.get]. *)
Record Query : Type := mkQuery {
  Authorization : option string;
  locationName : string
}.

(** What the upstream does with one request, as axios sees it. *)
Inductive Outcome : Type :=
| Reply (status : nat) (data : CWA.Body)
| ReplyNull (status : nat)          (* a reply whose body is [null] *)
| NoReply.                          (* network failure or timeout *)

(** The status and the parsed body of a reply. *)
Definition reply_of (o : Outcome) : option CWA.Response :=
  match o with
  | Reply st d => Some (CWA.mkResponse st (Some d))
  | ReplyNull st => Some (CWA.mkResponse st None)
  | NoReply => None
  end.

Record World : Type := mkWorld {
  upstream : Query -> Outcome;
  now : string                      (* [new Date().toISOString()] *)
}.

(** An [async] function: it reads the world, logs the requests it sends, and
    completes or throws. *)
Definition IO (A : Type) : Type := World -> list Query * result A.

Definition ret {A} (a : A) : IO A := fun _ => ([], Ok a).

Definition lift {A} (r : result A) : IO A := fun _ => ([], r).

Definition bindIO {A B} (m : IO A) (k : A -> IO B) : IO B :=
  fun w =>
    match m w with
    | (log, Ok a) => let (log', r) := k a w in (log ++ log', r)
    | (log, Throw e) => (log, Throw e)
    end.

(** [try { body } catch (error) { handler }]. *)
Definition try_catch {A} (body : IO A) (handler : Exn -> IO A) : IO A :=
  fun w =>
    match body w with
    | (log, Ok a) => (log, Ok a)
    | (log, Throw e) => let (log', r) := handler e w in (log ++ log', r)
    end.

Notation "'let*' x ':=' m 'in' k" := (bindIO m (fun x => k))
  (at level 10, x name, m at level 100, k at level 200).

(** [axios.get(url, { params })] with the default [validateStatus]: the
    promise resolves on a 2xx status and rejects otherwise, the rejection
    carrying the reply when there is one. *)
Definition axios_get (params : Query) : IO CWA.Response :=
  fun w =>
    ([params],
     match reply_of (upstream w params) with
     | Some response =>
         if (200 <=? CWA.status response) && (CWA.status response <? 300)
         then Ok response
         else Throw (AxiosError (Some response))
     | None => Throw (AxiosError None)
     end).

(** ** What a handler sends back *)

Record LocationWeather : Type := mkLocationWeather {
  city : option string;
  updateTime : option string;
  forecasts : list Forecast
}.

Inductive Data : Type :=
| One (weatherData : LocationWeather)
| Many (weatherData : list LocationWeather).

(** The argument of [res.json]. *)
Inductive Payload : Type :=
| Failure (error message : string) (details : option CWA.Body)
| Success (data : Data)
| Welcome (message : string) (names : list string) (endpoints : list (string * string))
| Health (status timestamp : string)
| NoRoute (error : string).

(** [res.status(statusCode).json(json)]; [res.json] alone sends 200. *)
Record Res : Type := mkRes {
  statusCode : nat;
  json : Payload
}.

(** [locations.map(callback)] with a callback that may throw. *)
Fixpoint map_throwing {A B} (callback : A -> result B) (l : list A)
  : result (list B) :=
  match l with
  | [] => Ok []
  | x :: rest =>
      y <- callback x ;;
      ys <- map_throwing callback rest ;;
      Ok (y :: ys)
  end.

Definition buildLocationWeather (location : CWA.Location)
    (datasetDescription : option string) : result LocationWeather :=
  forecasts <- parseWeatherElements (CWA.weatherElement location) ;;
  Ok (mkLocationWeather (CWA.locationName location) datasetDescription forecasts).

(** ** The route handlers *)

Section Server.

(** [process.env.CWA_API_KEY], read once when the module is loaded. *)
Variable CWA_API_KEY : option string.

Definition fetchWeatherDataset (locationName : string) : IO CWA.Response :=
  axios_get (mkQuery CWA_API_KEY locationName).

Definition getCityWeather (req_params_cityName : option string) : IO Res :=
  try_catch
    (if negb (JS.truthy CWA_API_KEY) then
       ret (mkRes 500
              (Failure "伺服器設定錯誤" "請在 .env 檔案中設定 CWA_API_KEY" None))
     else
       let* cityName :=
         lift (decodeURIComponent (JS.or_else req_params_cityName "")) in
       if negb (includes ALLOWED_CITY_NAMES cityName) then
         ret (mkRes 400
                (Failure "不支援的縣市"
                   ("請使用以下縣市名稱：" ++ join "、" ALLOWED_CITY_NAMES) None))
       else
         let* response := fetchWeatherDataset cityName in
         let* data := lift (JS.deref (CWA.data response)) in
         let* records := lift (JS.deref (CWA.records data)) in
         let locationData :=
           match CWA.location records with
           | Some locations => nth_error locations 0
           | None => None
           end in
         match locationData with
         | None =>
             ret (mkRes 404
                    (Failure "查無資料" ("無法取得 " ++ cityName ++ " 天氣資料") None))
         | Some locationData =>
             let* weatherData :=
               lift (buildLocationWeather locationData
                       (CWA.datasetDescription records)) in
             ret (mkRes 200 (Success (One weatherData)))
         end)
    (fun error =>
       match JS.response error with
       | Some response =>
           let* data := lift (JS.deref (CWA.data response)) in
           ret (mkRes (CWA.status response)
                  (Failure "CWA API 錯誤"
                     (JS.or_else (CWA.message data) "無法取得天氣資料")
                     (Some data)))
       | None =>
           ret (mkRes 500 (Failure "伺服器錯誤" "無法取得天氣資料，請稍後再試" None))
       end).

Definition getKaohsiungWeather : IO Res :=
  try_catch
    (if negb (JS.truthy CWA_API_KEY) then
       ret (mkRes 500
              (Failure "伺服器設定錯誤" "請在 .env 檔案中設定 CWA_API_KEY" None))
     else
       let* response := fetchWeatherDataset "高雄市" in
       let* data := lift (JS.deref (CWA.data response)) in
       let* records := lift (JS.deref (CWA.records data)) in
       let locationData :=
         match CWA.location records with
         | Some locations => nth_error locations 0
         | None => None
         end in
       match locationData with
       | None => ret (mkRes 404 (Failure "查無資料" "無法取得高雄市天氣資料" None))
       | Some locationData =>
           let* weatherData :=
             lift (buildLocationWeather locationData
                     (CWA.datasetDescription records)) in
           ret (mkRes 200 (Success (One weatherData)))
       end)
    (fun error =>
       match JS.response error with
       | Some response =>
           let* data := lift (JS.deref (CWA.data response)) in
           ret (mkRes (CWA.status response)
                  (Failure "CWA API 錯誤"
                     (JS.or_else (CWA.message data) "無法取得天氣資料")
                     (Some data)))
       | None =>
           ret (mkRes 500 (Failure "伺服器錯誤" "無法取得天氣資料，請稍後再試" None))
       end).

Definition getAllCityWeather : IO Res :=
  try_catch
    (if negb (JS.truthy CWA_API_KEY) then
       ret (mkRes 500
              (Failure "伺服器設定錯誤" "請在 .env 檔案中設定 CWA_API_KEY" None))
     else
       let* response := fetchWeatherDataset "" in
       let* data := lift (JS.deref (CWA.data response)) in
       let* records := lift (JS.deref (CWA.records data)) in
       let locations :=
         match CWA.location records with
         | Some locations => locations
         | None => []
         end in
       if length locations =? 0 then
         ret (mkRes 404 (Failure "查無資料" "無法取得全縣市天氣資料" None))
       else
         let datasetDescription := CWA.datasetDescription records in
         let* weatherData :=
           lift (map_throwing
                   (fun location => buildLocationWeather location datasetDescription)
                   locations) in
         ret (mkRes 200 (Success (Many weatherData))))
    (fun error =>
       match JS.response error with
       | Some response =>
           let* data := lift (JS.deref (CWA.data response)) in
           ret (mkRes (CWA.status response)
                  (Failure "CWA API 錯誤"
                     (JS.or_else (CWA.message data) "無法取得天氣資料")
                     (Some data)))
       | None =>
           ret (mkRes 500 (Failure "伺服器錯誤" "無法取得天氣資料，請稍後再試" None))
       end).

(** The routing table. *)
Inductive Route : Type :=
| Root                                       (* GET / *)
| ApiHealth                                  (* GET /api/health *)
| WeatherKaohsiung                           (* GET /api/weather/kaohsiung *)
| WeatherCity (cityName : option string)     (* GET /api/weather/city/:cityName *)
| WeatherAll                                 (* GET /api/weather/all *)
| Unmatched.                                 (* anything else *)

Definition app (r : Route) : IO Res :=
  match r with
  | Root =>
      ret (mkRes 200
             (Welcome "歡迎使用 CWA 天氣預報 API"
                [ "基隆市"; "臺北市"; "新北市"; "桃園市"; "新竹市"; "新竹縣";
                  "苗栗縣"; "臺中市"; "彰化縣"; "南投縣"; "雲林縣"; "嘉義市";
                  "嘉義縣"; "臺南市"; "高雄市"; "屏東縣"; "宜蘭縣"; "花蓮縣";
                  "臺東縣"; "澎湖縣"; "金門縣"; "連江縣" ]
                [ ("kaohsiung", "/api/weather/kaohsiung");
                  ("all", "/api/weather/all");
                  ("city", "/api/weather/city/:cityName");
                  ("health", "/api/health") ]))
  | ApiHealth => fun w => ret (mkRes 200 (Health "OK" (now w))) w
  | WeatherKaohsiung => getKaohsiungWeather
  | WeatherCity cityName => getCityWeather cityName
  | WeatherAll => getAllCityWeather
  | Unmatched => ret (mkRes 404 (NoRoute "找不到此路徑"))
  end.

End Server.

(** * Part II: vocabulary of the statements *)

(** ** The reshaper *)

(** The output field that the [case] of kind [k] writes. *)
Definition field (k : Kind) (f : Forecast) : option string :=
  match k with
  | Wx => weather f
  | PoP => rain f
  | MinT => minTemp f
  | MaxT => maxTemp f
  | CI => comfort f
  | WS => windSpeed f
  end.

Definition is_string (v : option string) : Prop := exists s, v = Some s.

Definition all_strings (f : Forecast) : Prop :=
  forall k, is_string (field k f).

(** [element.time[i]] when both the array and the entry are there. *)
Definition entry_at (element : CWA.Element) (i : nat) : option CWA.TimeEntry :=
  match CWA.time element with
  | Some t => nth_error t i
  | None => None
  end.

(** Length of [element.time], 0 when the property is absent. *)
Definition time_length (element : CWA.Element) : nat :=
  match CWA.time element with
  | Some t => length t
  | None => 0
  end.

(** The element is named by one of the six labels. *)
Definition recognized (element : CWA.Element) : Prop :=
  exists k, CWA.elementName element = Some (label k).

(** No element of the array is of kind [k]. *)
Definition absent (k : Kind) (elements : list CWA.Element) : Prop :=
  forall e, In e elements -> CWA.elementName e <> Some (label k).

Definition elements_of (we : option (list CWA.Element)) : list CWA.Element :=
  match we with
  | Some elements => elements
  | None => []
  end.

(** Every element has an entry at every slot the loop visits, and those of
    a recognized kind carry a [parameter] there. *)
Definition covered (elements : list CWA.Element) : Prop :=
  forall e i, In e elements -> i < timeCount (Some elements) ->
    exists entry, entry_at e i = Some entry /\
      (recognized e -> CWA.parameter entry <> None).

(** Every [parameter] object of the array has a [parameterName]. *)
Definition named (elements : list CWA.Element) : Prop :=
  forall e t entry v,
    In e elements -> CWA.time e = Some t -> In entry t ->
    CWA.parameter entry = Some v -> is_string (CWA.parameterName v).

(** The kinds whose [case] appends a suffix. *)
Definition suffixed (k : Kind) : bool :=
  match k with
  | PoP | MinT | MaxT => true
  | Wx | CI | WS => false
  end.

(** ** The handlers *)

(** The status codes for which the promise of [axios.get] resolves. *)
Definition is2xx (st : nat) : bool := (200 <=? st) && (st <? 300).

(** How the [catch] clause ends, by what was thrown: it reads
    [error.response.data.message], which throws when the body is [null]. *)
Definition caught (error : Exn) : result Res :=
  match error with
  | AxiosError (Some response) =>
      match CWA.data response with
      | Some data =>
          Ok (mkRes (CWA.status response)
                (Failure "CWA API 錯誤"
                   (JS.or_else (CWA.message data) "無法取得天氣資料")
                   (Some data)))
      | None => Throw TypeError
      end
  | _ => Ok (mkRes 500 (Failure "伺服器錯誤" "無法取得天氣資料，請稍後再試" None))
  end.

(** How the handler ends when its [try] block ends with [r]. *)
Definition settle (r : result Res) : result Res :=
  match r with
  | Ok res => Ok res
  | Throw x => caught x
  end.

(** How the [try] block of a single-region handler ends, by the outcome of
    its request; [missing] is the message of its 404. *)
Definition first_location_result (missing : string) (o : Outcome) : result Res :=
  match o with
  | NoReply => Throw (AxiosError None)
  | ReplyNull st =>
      if is2xx st then Throw TypeError
      else Throw (AxiosError (Some (CWA.mkResponse st None)))
  | Reply st d =>
      if is2xx st then
        match CWA.records d with
        | None => Throw TypeError
        | Some records =>
            match CWA.location records with
            | Some (location :: _) =>
                match parseWeatherElements (CWA.weatherElement location) with
                | Ok fs =>
                    Ok (mkRes 200
                          (Success
                             (One (mkLocationWeather (CWA.locationName location)
                                     (CWA.datasetDescription records) fs))))
                | Throw x => Throw x
                end
            | _ => Ok (mkRes 404 (Failure "查無資料" missing None))
            end
        end
      else Throw (AxiosError (Some (CWA.mkResponse st (Some d))))
  end.

(** How the [try] block of the all-regions handler ends. *)
Definition all_locations_result (o : Outcome) : result Res :=
  match o with
  | NoReply => Throw (AxiosError None)
  | ReplyNull st =>
      if is2xx st then Throw TypeError
      else Throw (AxiosError (Some (CWA.mkResponse st None)))
  | Reply st d =>
      if is2xx st then
        match CWA.records d with
        | None => Throw TypeError
        | Some records =>
            match CWA.location records with
            | Some (location :: rest) =>
                match map_throwing
                        (fun l => buildLocationWeather l (CWA.datasetDescription records))
                        (location :: rest) with
                | Ok ws => Ok (mkRes 200 (Success (Many ws)))
                | Throw x => Throw x
                end
            | _ => Ok (mkRes 404 (Failure "查無資料" "無法取得全縣市天氣資料" None))
            end
        end
      else Throw (AxiosError (Some (CWA.mkResponse st (Some d))))
  end.

(** The [error] property of a payload, when it has one. *)
Definition error_of (payload : Payload) : option string :=
  match payload with
  | Failure error _ _ => Some error
  | NoRoute error => Some error
  | _ => None
  end.

(** ** Sample payloads *)

Definition entry1 (value : option string) : CWA.TimeEntry :=
  CWA.mkTime (Some "2024-01-01 06:00:00") (Some "2024-01-01 18:00:00")
    (Some (CWA.mkParameter value)).

(** An element of the given name with one time slot. *)
Definition element1 (name : string) (value : option string) : CWA.Element :=
  CWA.mkElement (Some name) (Some [entry1 value]).

(** An element of the given name whose [time] array is empty. *)
Definition element0 (name : string) : CWA.Element :=
  CWA.mkElement (Some name) (Some []).

(** An element of the given name without [time] property. *)
Definition timeless (name : string) : CWA.Element :=
  CWA.mkElement (Some name) None.

Definition record1 (weather rain minTemp maxTemp comfort windSpeed : option string)
  : Forecast :=
  mkForecast (Some "2024-01-01 06:00:00") (Some "2024-01-01 18:00:00")
    weather rain minTemp maxTemp comfort windSpeed.

(** A [Wx] element whose [parameter] object has no [parameterName]. *)
Definition wx_without_name : list CWA.Element := [element1 "Wx" None].

(** A [Wx] element whose only time entry has no [parameter]. *)
Definition wx_without_parameter : list CWA.Element :=
  [CWA.mkElement (Some "Wx")
     (Some [CWA.mkTime (Some "2024-01-01 06:00:00") (Some "2024-01-01 18:00:00")
              None])].

(** A [Wx] element with one slot followed by a [PoP] element with none. *)
Definition ragged : list CWA.Element := [element1 "Wx" (Some "晴"); element0 "PoP"].

(** One slot with a [PoP], a [MinT] and a [MaxT] element. *)
Definition three_suffixes : list CWA.Element :=
  [element1 "PoP" (Some "10"); element1 "MinT" (Some "20");
   element1 "MaxT" (Some "30")].

(** The upstream value of kind [k] in [three_suffixes]; for the kinds it
    lacks, the default. *)
Definition three_values (k : Kind) : option string :=
  match k with
  | PoP => Some "10"
  | MinT => Some "20"
  | MaxT => Some "30"
  | Wx | CI | WS => Some ""
  end.

(** An element of a kind the [switch] does not know, with no time entry. *)
Definition stranger : CWA.Element := element0 "UVI".

Definition dataset (locations : list CWA.Location) : CWA.Body :=
  CWA.mkBody (Some (CWA.mkRecords (Some "三十六小時天氣預報") (Some locations))) None.

(** An upstream that answers every request with the given status and body. *)
Definition answering (st : nat) (body : CWA.Body) : World :=
  mkWorld (fun _ => Reply st body) "2024-01-01T00:00:00.000Z".

(** An upstream that answers every request with the given status and the
    body [null]. *)
Definition nulled (st : nat) : World :=
  mkWorld (fun _ => ReplyNull st) "2024-01-01T00:00:00.000Z".

(** An upstream that never answers. *)
Definition silent : World :=
  mkWorld (fun _ => NoReply) "2024-01-01T00:00:00.000Z".

(** A location whose second element has fewer time entries than the first. *)
Definition ragged_location : CWA.Location :=
  CWA.mkLocation (Some "高雄市") (Some ragged).

Definition taipei : CWA.Location :=
  CWA.mkLocation (Some "臺北市") (Some [element1 "MinT" (Some "20")]).

(** The answer of a handler that has sent [q] tells the two failures of
    the upstream apart: a reply with a status outside 200..299 and a body
    that is an object is forwarded, status and body; no reply at all is
    answered 500 with the generic message; [q] is the only request sent. *)
Definition forwards_failure (w : World) (q : Query)
    (answer : list Query * result Res) : Prop :=
  (forall st body,
     upstream w q = Reply st body -> is2xx st = false ->
     answer =
     ([q], Ok (mkRes st
                 (Failure "CWA API 錯誤"
                    (JS.or_else (CWA.message body) "無法取得天氣資料")
                    (Some body))))) /\
  (upstream w q = NoReply ->
   answer =
   ([q], Ok (mkRes 500 (Failure "伺服器錯誤" "無法取得天氣資料，請稍後再試" None)))).

(** ** Further vocabulary *)

(** [needle] occurs in [s]. *)
Definition occurs (needle s : string) : Prop :=
  exists pre post : string, s = (pre ++ needle ++ post)%string.

(** The string has no percent sign. *)
Fixpoint plain (s : string) : bool :=
  match s with
  | EmptyString => true
  | String c rest => negb (Ascii.eqb c "%") && plain rest
  end.

(** What the callback of [forEach] reads of an element at slot [i]: its
    name and its [i]-th time entry. *)
Definition at_slot (i : nat) (e : CWA.Element)
  : option string * option CWA.TimeEntry :=
  (CWA.elementName e, entry_at e i).

(** The kinds of the recognized elements of an array, in order. *)
Definition kinds (elements : list CWA.Element) : list Kind :=
  flat_map (fun e => match kind_of (CWA.elementName e) with
                     | Some k => [k]
                     | None => []
                     end) elements.

(** The routes whose handler sends a request: the region it asks for and
    how its [try] block ends, by the outcome of that request. *)
Inductive Sends : Route -> string -> (Outcome -> result Res) -> Prop :=
| sends_kaohsiung :
    Sends WeatherKaohsiung "高雄市"
      (first_location_result "無法取得高雄市天氣資料")
| sends_city (p : option string) (name : string) :
    decodeURIComponent (JS.or_else p "") = Ok name ->
    In name ALLOWED_CITY_NAMES ->
    Sends (WeatherCity p) name
      (first_location_result ("無法取得 " ++ name ++ " 天氣資料"))
| sends_all :
    Sends WeatherAll "" all_locations_result.

(** * Part III: properties *)

(** ** The result monad *)

Lemma bind_Ok {A B} (m : result A) (k : A -> result B) (b : B) :
  JS.bind m k = Ok b -> exists a, m = Ok a /\ k a = Ok b.
Proof.
  destruct m as [a|e]; simpl; intros H; [eauto | discriminate].
Qed.

Ltac inv_bind H :=
  let a := fresh "a" in
  let Ha := fresh "Ha" in
  apply bind_Ok in H; destruct H as (a & Ha & H).

(** ** The [switch] *)

Lemma kind_of_label (k : Kind) : kind_of (Some (label k)) = Some k.
Proof. destruct k; reflexivity. Qed.

Lemma kind_of_Some (n : option string) (k : Kind) :
  kind_of n = Some k <-> n = Some (label k).
Proof.
  split; [|intros ->; apply kind_of_label].
  destruct n as [s|]; simpl; [|discriminate].
  repeat match goal with
         | |- context [String.eqb s ?l] =>
             destruct (String.eqb_spec s l) as [->|_]
         end; intros H; inversion H; reflexivity.
Qed.

Lemma kind_of_None (e : CWA.Element) :
  kind_of (CWA.elementName e) = None <-> ~ recognized e.
Proof.
  split.
  - intros H (k & K). apply kind_of_Some in K. congruence.
  - intros H. destruct (kind_of (CWA.elementName e)) as [k|] eqn:K; [|reflexivity].
    exfalso. apply H. exists k. apply kind_of_Some, K.
Qed.

Lemma assign_times (k : Kind) (f : Forecast) (n : option string) :
  startTime (assign k f n) = startTime f /\ endTime (assign k f n) = endTime f.
Proof. destruct k; split; reflexivity. Qed.

Lemma assign_other (k k' : Kind) (f : Forecast) (n : option string) :
  k <> k' -> field k' (assign k f n) = field k' f.
Proof. destruct k, k'; intros H; try reflexivity; congruence. Qed.

Lemma assign_same (k : Kind) (f : Forecast) (n : option string) :
  field k (assign k f n) =
  match k with
  | PoP => Some (JS.concat n "%")
  | MinT | MaxT => Some (JS.concat n "°C")
  | Wx | CI | WS => n
  end.
Proof. destruct k; reflexivity. Qed.

Lemma blank_field (k : Kind) (s e : option string) : field k (blank s e) = Some "".
Proof. destruct k; reflexivity. Qed.

(** ** One element, one slot *)

Lemma visit_unfold (i : nat) (f : Forecast) (e : CWA.Element) :
  visit i f e =
  match entry_at e i with
  | None => Throw TypeError
  | Some entry =>
      match kind_of (CWA.elementName e) with
      | None => Ok f
      | Some k =>
          match CWA.parameter entry with
          | None => Throw TypeError
          | Some v => Ok (assign k f (CWA.parameterName v))
          end
      end
  end.
Proof.
  unfold visit, entry_at.
  destruct (CWA.time e) as [t|]; simpl; [|reflexivity].
  destruct (nth_error t i) as [entry|]; simpl; [|reflexivity].
  destruct (kind_of (CWA.elementName e)); [|reflexivity].
  destruct (CWA.parameter entry); reflexivity.
Qed.

Lemma entry_at_None (e : CWA.Element) (i : nat) :
  entry_at e i = None <-> time_length e <= i.
Proof.
  unfold entry_at, time_length. destruct (CWA.time e) as [t|].
  - apply nth_error_None.
  - split; intros _; [lia | reflexivity].
Qed.

Lemma entry_at_Some (e : CWA.Element) (i : nat) :
  i < time_length e -> exists entry, entry_at e i = Some entry.
Proof.
  intros H. destruct (entry_at e i) as [entry|] eqn:E; [eauto|].
  apply entry_at_None in E. lia.
Qed.

Lemma entry_at_In (e : CWA.Element) (i : nat) (entry : CWA.TimeEntry) :
  entry_at e i = Some entry ->
  exists t, CWA.time e = Some t /\ In entry t.
Proof.
  unfold entry_at. destruct (CWA.time e) as [t|]; [|discriminate].
  intros H. exists t. split; [reflexivity|]. eapply nth_error_In; eauto.
Qed.

Lemma visit_throws (i : nat) (f : Forecast) (e : CWA.Element) (x : Exn) :
  visit i f e = Throw x -> x = TypeError.
Proof.
  rewrite visit_unfold.
  destruct (entry_at e i) as [entry|]; [|congruence].
  destruct (kind_of (CWA.elementName e)); [|discriminate].
  destruct (CWA.parameter entry); [discriminate | congruence].
Qed.

(** A successful visit either leaves the record as it is (unknown kind) or
    assigns the field of the element's kind. *)
Lemma visit_Ok (i : nat) (f f' : Forecast) (e : CWA.Element) :
  visit i f e = Ok f' ->
  exists entry, entry_at e i = Some entry /\
    ((~ recognized e /\ f' = f) \/
     (exists k v, CWA.elementName e = Some (label k) /\
                  CWA.parameter entry = Some v /\
                  f' = assign k f (CWA.parameterName v))).
Proof.
  rewrite visit_unfold.
  destruct (entry_at e i) as [entry|]; [|discriminate].
  intros H. exists entry. split; [reflexivity|].
  destruct (kind_of (CWA.elementName e)) as [k|] eqn:K.
  - destruct (CWA.parameter entry) as [v|]; [|discriminate].
    inversion H; subst. right. exists k, v. apply kind_of_Some in K. auto.
  - inversion H; subst. left. split; [apply kind_of_None, K | reflexivity].
Qed.

(** ** [forEach] *)

Lemma forEach_app (i : nat) (xs ys : list CWA.Element) (f : Forecast) :
  forEach i (xs ++ ys) f = (f' <- forEach i xs f ;; forEach i ys f').
Proof.
  revert f. induction xs as [|x xs IH]; intros f; simpl; [reflexivity|].
  destruct (visit i f x); simpl; [apply IH | reflexivity].
Qed.

Lemma forEach_throws (i : nat) (els : list CWA.Element) (f : Forecast) (x : Exn) :
  forEach i els f = Throw x -> x = TypeError.
Proof.
  revert f. induction els as [|e els IH]; intros f; simpl; [discriminate|].
  destruct (visit i f e) eqn:V; simpl.
  - apply IH.
  - intros H. inversion H; subst. eapply visit_throws; eauto.
Qed.

Lemma forEach_times (i : nat) (els : list CWA.Element) (f f' : Forecast) :
  forEach i els f = Ok f' ->
  startTime f' = startTime f /\ endTime f' = endTime f.
Proof.
  revert f. induction els as [|e els IH]; intros f; simpl.
  - intros H; inversion H; auto.
  - intros H. inv_bind H. apply IH in H.
    destruct (visit_Ok _ _ _ _ Ha) as (en & _ & [(_ & ->)|(k & v & _ & _ & ->)]);
      [exact H|].
    destruct (assign_times k f (CWA.parameterName v)).
    destruct H; split; congruence.
Qed.

Lemma forEach_absent (k : Kind) (i : nat) (els : list CWA.Element) (f f' : Forecast) :
  absent k els -> forEach i els f = Ok f' -> field k f' = field k f.
Proof.
  revert f. induction els as [|e els IH]; intros f Hab; simpl.
  - intros H; inversion H; reflexivity.
  - intros H. inv_bind H.
    assert (Hab' : absent k els) by (intros e' He'; apply Hab; right; exact He').
    rewrite (IH _ Hab' H).
    destruct (visit_Ok _ _ _ _ Ha) as (en & _ & [(_ & ->)|(k0 & v & K & _ & ->)]);
      [reflexivity|].
    apply assign_other. intros ->. apply (Hab e); [left; reflexivity | exact K].
Qed.

(** A successful [forEach] has read slot [i] of every element. *)
Lemma forEach_Ok_entries (i : nat) (els : list CWA.Element) (f f' : Forecast) :
  forEach i els f = Ok f' ->
  forall e, In e els ->
    exists entry, entry_at e i = Some entry /\
      (recognized e -> CWA.parameter entry <> None).
Proof.
  revert f. induction els as [|x els IH]; intros f H e He; [destruct He|].
  simpl in H. inv_bind H. destruct He as [->|He]; [|eapply IH; eauto].
  destruct (visit_Ok _ _ _ _ Ha) as (en & E & [(U & _)|(k & v & _ & P & _)]);
    exists en; (split; [exact E|]); intros R; [contradiction | congruence].
Qed.

Lemma forEach_Ok_intro (i : nat) (els : list CWA.Element) (f : Forecast) :
  (forall e, In e els ->
     exists entry, entry_at e i = Some entry /\
       (recognized e -> CWA.parameter entry <> None)) ->
  exists f', forEach i els f = Ok f'.
Proof.
  revert f. induction els as [|x els IH]; intros f H; simpl; [eauto|].
  destruct (H x (or_introl eq_refl)) as (entry & E & P).
  rewrite visit_unfold, E.
  destruct (kind_of (CWA.elementName x)) as [k|] eqn:K; simpl.
  - destruct (CWA.parameter entry) as [v|].
    + simpl. apply IH. intros e He. apply H. right; exact He.
    + exfalso. apply P; [|reflexivity]. exists k. apply kind_of_Some, K.
  - apply IH. intros e He. apply H. right; exact He.
Qed.

(** The field of kind [k] comes from the last element of that kind. *)
Lemma forEach_last (k : Kind) (i : nat) (pre post : list CWA.Element)
    (e : CWA.Element) (f f' : Forecast) :
  CWA.elementName e = Some (label k) -> absent k post ->
  forEach i (pre ++ e :: post) f = Ok f' ->
  exists entry v,
    entry_at e i = Some entry /\ CWA.parameter entry = Some v /\
    field k f' = field k (assign k f (CWA.parameterName v)).
Proof.
  intros K Hab H. rewrite forEach_app in H. inv_bind H.
  simpl in H. inv_bind H. apply kind_of_Some in K.
  rewrite visit_unfold, K in Ha0.
  destruct (entry_at e i) as [entry|] eqn:E; [|discriminate].
  destruct (CWA.parameter entry) as [v|] eqn:P; [|discriminate].
  inversion Ha0; subst. exists entry, v.
  split; [reflexivity|]. split; [exact P|].
  rewrite (forEach_absent k i post _ _ Hab H).
  rewrite !assign_same. reflexivity.
Qed.

Lemma forEach_skip (i : nat) (xs ys : list CWA.Element) (u : CWA.Element)
    (f : Forecast) :
  ~ recognized u -> i < time_length u ->
  forEach i (xs ++ u :: ys) f = forEach i (xs ++ ys) f.
Proof.
  intros K T. apply kind_of_None in K. rewrite !forEach_app.
  destruct (forEach i xs f) as [f'|x]; simpl; [|reflexivity].
  rewrite visit_unfold, K.
  destruct (entry_at_Some u i T) as (en & ->). reflexivity.
Qed.

Lemma forEach_strings (k : Kind) (i : nat) (els : list CWA.Element) :
  forall f f' : Forecast,
  forEach i els f = Ok f' -> is_string (field k f) ->
  suffixed k = true \/ named els -> is_string (field k f').
Proof.
  induction els as [|e els IH]; intros f f' H S N; simpl in H.
  - inversion H; subst; exact S.
  - inv_bind H. apply (IH a f' H).
    + destruct (visit_Ok _ _ _ _ Ha) as (en & E & [(_ & ->)|(k0 & v & _ & P & ->)]);
        [exact S|].
      assert (D : k0 = k \/ k0 <> k) by (destruct k0, k; auto; right; discriminate).
      destruct D as [->|D]; [|rewrite assign_other; assumption].
      rewrite assign_same. destruct N as [N|N].
      * destruct k; try discriminate; eexists; reflexivity.
      * destruct (entry_at_In _ _ _ E) as (t & T & I).
        pose proof (N e t en v (or_introl eq_refl) T I P) as (s & Hs).
        rewrite Hs. destruct k; eexists; reflexivity.
    + destruct N as [N|N]; [left; exact N|].
      right. intros e' t en v He'. apply N. right; exact He'.
Qed.

(** ** The [for] loop *)

Lemma for_loop_Ok (body : nat -> result Forecast) (todo : nat) :
  forall (i : nat) (acc recs : list Forecast),
  for_loop body i todo acc = Ok recs ->
  length recs = length acc + todo /\
  (forall j, j < length acc -> nth_error recs j = nth_error acc j) /\
  (forall j, j < todo ->
     exists r, body (i + j) = Ok r /\ nth_error recs (length acc + j) = Some r).
Proof.
  induction todo as [|todo IH]; intros i acc recs H; simpl in H.
  - inversion H; subst. split; [lia|]. split; [reflexivity|]. intros j Hj; lia.
  - inv_bind H. rename a into f.
    destruct (IH _ _ _ H) as (L & P & S).
    rewrite length_app in L, P, S. simpl in L, P, S.
    split; [lia|]. split.
    + intros j Hj. rewrite P by lia. apply nth_error_app1. exact Hj.
    + intros [|j] Hj.
      * exists f. rewrite !Nat.add_0_r. split; [exact Ha|].
        rewrite P by lia. rewrite nth_error_app2 by lia.
        rewrite Nat.sub_diag. reflexivity.
      * destruct (S j) as (r & B & N); [lia|].
        exists r. split.
        -- rewrite <- B. f_equal. lia.
        -- rewrite <- N. f_equal. lia.
Qed.

Lemma for_loop_total (body : nat -> result Forecast) (todo : nat) :
  forall (i : nat) (acc : list Forecast),
  (forall j, j < todo -> exists r, body (i + j) = Ok r) ->
  exists recs, for_loop body i todo acc = Ok recs.
Proof.
  induction todo as [|todo IH]; intros i acc H; simpl; [eauto|].
  destruct (H 0) as (r & B); [lia|]. rewrite Nat.add_0_r in B. rewrite B. simpl.
  apply IH. intros j Hj. destruct (H (S j)) as (r' & B'); [lia|].
  exists r'. rewrite <- B'. f_equal. lia.
Qed.

Lemma for_loop_ext (body body' : nat -> result Forecast) (todo : nat) :
  forall (i : nat) (acc : list Forecast),
  (forall j, j < todo -> body (i + j) = body' (i + j)) ->
  for_loop body i todo acc = for_loop body' i todo acc.
Proof.
  induction todo as [|todo IH]; intros i acc H; simpl; [reflexivity|].
  assert (H0 : body i = body' i).
  { specialize (H 0). rewrite Nat.add_0_r in H. apply H. lia. }
  rewrite H0. destruct (body' i); simpl; [|reflexivity].
  apply IH. intros j Hj. replace (S i + j) with (i + S j) by lia.
  apply H. lia.
Qed.

Lemma for_loop_throws (body : nat -> result Forecast) (todo : nat) :
  forall (i : nat) (acc : list Forecast) (x : Exn),
  (forall j y, body j = Throw y -> y = TypeError) ->
  for_loop body i todo acc = Throw x -> x = TypeError.
Proof.
  induction todo as [|todo IH]; intros i acc x B H; simpl in H; [discriminate|].
  destruct (body i) eqn:E; simpl in H.
  - eapply IH; eauto.
  - inversion H; subst. eapply B; eauto.
Qed.

(** ** One slot, and the whole reshaper *)

Lemma timeCount_cons (first : CWA.Element) (rest : list CWA.Element) :
  timeCount (Some (first :: rest)) = time_length first.
Proof. reflexivity. Qed.

Lemma slot_cons (first : CWA.Element) (rest : list CWA.Element) (i : nat) :
  slot (Some (first :: rest)) i =
  match entry_at first i with
  | Some entry =>
      forEach i (first :: rest) (blank (CWA.startTime entry) (CWA.endTime entry))
  | None => Throw TypeError
  end.
Proof.
  unfold slot, entry_at. cbn [JS.deref JS.bind nth_error].
  destruct (CWA.time first) as [t|]; cbn [JS.deref JS.bind]; [|reflexivity].
  destruct (nth_error t i); reflexivity.
Qed.

Lemma slot_throws (we : option (list CWA.Element)) (i : nat) (x : Exn) :
  slot we i = Throw x -> x = TypeError.
Proof.
  destruct we as [[|first rest]|];
    try (simpl; intros H; inversion H; reflexivity).
  rewrite slot_cons. destruct (entry_at first i).
  - apply forEach_throws.
  - intros H; inversion H; reflexivity.
Qed.

Lemma parse_throws (we : option (list CWA.Element)) (x : Exn) :
  parseWeatherElements we = Throw x -> x = TypeError.
Proof.
  unfold parseWeatherElements. apply for_loop_throws. intros j. apply slot_throws.
Qed.

Lemma parse_Ok (we : option (list CWA.Element)) (recs : list Forecast) :
  parseWeatherElements we = Ok recs ->
  length recs = timeCount we /\
  (forall i, i < timeCount we ->
     exists r, nth_error recs i = Some r /\ slot we i = Ok r).
Proof.
  unfold parseWeatherElements. intros H.
  destruct (for_loop_Ok _ _ _ _ _ H) as (L & _ & S). simpl in L, S.
  split; [exact L|]. intros i Hi.
  destruct (S i Hi) as (r & B & N). eauto.
Qed.

Lemma parse_In (we : option (list CWA.Element)) (recs : list Forecast) (r : Forecast) :
  parseWeatherElements we = Ok recs -> In r recs ->
  exists i, i < timeCount we /\ nth_error recs i = Some r /\ slot we i = Ok r.
Proof.
  intros H Hr. destruct (parse_Ok _ _ H) as (L & S).
  destruct (In_nth_error _ _ Hr) as (i & N).
  assert (Hi : i < timeCount we).
  { rewrite <- L. apply nth_error_Some. congruence. }
  destruct (S i Hi) as (r' & N' & B).
  exists i. repeat split; [exact Hi | exact N | congruence].
Qed.

(** A produced record is the outcome of [forEach] on a blank record. *)
Lemma slot_Ok (we : option (list CWA.Element)) (i : nat) (r : Forecast) :
  slot we i = Ok r ->
  exists first rest entry,
    we = Some (first :: rest) /\ entry_at first i = Some entry /\
    forEach i (first :: rest) (blank (CWA.startTime entry) (CWA.endTime entry)) = Ok r.
Proof.
  destruct we as [[|first rest]|]; try (simpl; discriminate).
  rewrite slot_cons. destruct (entry_at first i) as [entry|] eqn:E; [|discriminate].
  intros H. exists first, rest, entry. auto.
Qed.

Lemma covered_total (elements : list CWA.Element) :
  covered elements -> exists recs, parseWeatherElements (Some elements) = Ok recs.
Proof.
  intros C. unfold parseWeatherElements. apply for_loop_total.
  intros j Hj. simpl in Hj |- *.
  destruct elements as [|first rest]; [simpl in Hj; lia|].
  rewrite slot_cons.
  destruct (C first j (or_introl eq_refl) Hj) as (entry & E & _). rewrite E.
  apply forEach_Ok_intro. intros e He. apply C; assumption.
Qed.

(** The reshaper returns exactly on the covered arrays. *)
Lemma parse_Ok_covered (elements : list CWA.Element) (recs : list Forecast) :
  parseWeatherElements (Some elements) = Ok recs -> covered elements.
Proof.
  intros H e i He Hi. destruct (parse_Ok _ _ H) as (_ & S).
  destruct (S i Hi) as (r & _ & B).
  destruct (slot_Ok _ _ _ B) as (first & rest & en & E & _ & F).
  inversion E; subst elements.
  eapply forEach_Ok_entries; eauto.
Qed.

(** ** C1 *)

(** C1, as stated, fails: on a [Wx] element whose parameter carries no
    [parameterName] the reshaper produces a record whose [weather] field is
    [undefined], not a string. *)
Lemma reshaper_field_undefined :
  exists r,
    parseWeatherElements (Some wx_without_name) = Ok [r] /\
    weather r = None /\ ~ all_strings r.
Proof.
  eexists. split; [reflexivity|]. split; [reflexivity|].
  intros H. destruct (H Wx) as (s & Hs). discriminate Hs.
Qed.

(** Where a field comes from: it is left as it was, or it was assigned
    from the parameter of an element of its kind at slot [i]. *)
Lemma forEach_source (k : Kind) (i : nat) (els : list CWA.Element) :
  forall f f' : Forecast,
  forEach i els f = Ok f' ->
  field k f' = field k f \/
  exists e en v,
    In e els /\ CWA.elementName e = Some (label k) /\
    entry_at e i = Some en /\ CWA.parameter en = Some v /\
    field k f' = field k (assign k f (CWA.parameterName v)).
Proof.
  induction els as [|x els IH]; intros f f' H; simpl in H.
  - inversion H; subst. left; reflexivity.
  - inv_bind H.
    destruct (IH a f' H) as [E|(e & en & v & I & K & En & P & E)].
    + rewrite E.
      destruct (visit_Ok _ _ _ _ Ha) as (en & En & [(_ & ->)|(k0 & v & K & P & ->)]);
        [left; reflexivity|].
      assert (D : k0 = k \/ k0 <> k) by (destruct k0, k; auto; right; discriminate).
      destruct D as [->|D]; [|left; apply assign_other, D].
      right. exists x, en, v. repeat split; auto. left; reflexivity.
    + right. exists e, en, v. repeat split; auto; [right; exact I|].
      rewrite E, !assign_same. reflexivity.
Qed.

(** C1, amended: in every record the reshaper produces, a field whose kind
    is absent from the array is the empty string; [rain], [minTemp] and
    [maxTemp] are always strings; and each of [weather], [comfort] and
    [windSpeed] is either the empty string or the [parameterName] of an
    element of its kind at the record's slot, copied as it is. *)
Theorem reshaper_fields (we : option (list CWA.Element))
    (recs : list Forecast) (r : Forecast) :
  parseWeatherElements we = Ok recs -> In r recs ->
  (forall k, absent k (elements_of we) -> field k r = Some "") /\
  (is_string (rain r) /\ is_string (minTemp r) /\ is_string (maxTemp r)) /\
  (forall k, suffixed k = false ->
     field k r = Some "" \/
     exists i e en v,
       nth_error recs i = Some r /\
       In e (elements_of we) /\ CWA.elementName e = Some (label k) /\
       entry_at e i = Some en /\ CWA.parameter en = Some v /\
       field k r = CWA.parameterName v).
Proof.
  intros H Hr. destruct (parse_In _ _ _ H Hr) as (i & _ & N & B).
  destruct (slot_Ok _ _ _ B) as (first & rest & en0 & -> & _ & F). simpl.
  split; [|split].
  - intros k A. rewrite (forEach_absent k _ _ _ _ A F). apply blank_field.
  - assert (S : forall k, suffixed k = true -> is_string (field k r)).
    { intros k K. eapply forEach_strings; eauto.
      rewrite blank_field. eexists; reflexivity. }
    repeat split; [apply (S PoP) | apply (S MinT) | apply (S MaxT)]; reflexivity.
  - intros k K.
    destruct (forEach_source k _ _ _ _ F) as [E|(e & en & v & I & Ke & En & P & E)].
    + left. rewrite E. apply blank_field.
    + right. exists i, e, en, v. repeat split; auto.
      rewrite E, assign_same. destruct k; try reflexivity; discriminate K.
Qed.

Lemma reshaper_fields_witness :
  comfort (record1 (Some "晴") (Some "") (Some "") (Some "") (Some "") (Some ""))
  = Some "" /\
  (weather (record1 (Some "晴") (Some "") (Some "") (Some "") (Some "") (Some ""))
   = Some "" \/
   exists i e en v,
     nth_error
       [record1 (Some "晴") (Some "") (Some "") (Some "") (Some "") (Some "")] i
     = Some (record1 (Some "晴") (Some "") (Some "") (Some "") (Some "") (Some "")) /\
     In e [element1 "Wx" (Some "晴")] /\ CWA.elementName e = Some (label Wx) /\
     entry_at e i = Some en /\ CWA.parameter en = Some v /\
     weather (record1 (Some "晴") (Some "") (Some "") (Some "") (Some "") (Some ""))
     = CWA.parameterName v).
Proof.
  destruct (reshaper_fields (Some [element1 "Wx" (Some "晴")])
              [record1 (Some "晴") (Some "") (Some "") (Some "") (Some "") (Some "")]
              (record1 (Some "晴") (Some "") (Some "") (Some "") (Some "") (Some ""))
              eq_refl (or_introl eq_refl)) as (A & _ & C).
  split.
  - apply (A CI). intros e [<-|[]]. discriminate.
  - apply (C Wx). reflexivity.
Defined.

(** ** C2 *)

(** C2, as stated, fails: the reshaper does not return [timeCount] records
    on every array.  With [timeCount] at 1 it throws when another element
    has no entry at slot 0, and when an element of a recognized kind has no
    [parameter] there. *)
Lemma reshaper_ragged_throws :
  timeCount (Some ragged) = 1 /\
  parseWeatherElements (Some ragged) = Throw TypeError /\
  timeCount (Some wx_without_parameter) = 1 /\
  parseWeatherElements (Some wx_without_parameter) = Throw TypeError.
Proof. repeat split. Qed.

(** C2, amended: let [timeCount] be the length of the first element's
    [time] array (0 when the array, its first element or that element's
    [time] is missing).  When every element has an entry at each slot below
    [timeCount] and the recognized ones carry a parameter there, the
    reshaper returns exactly [timeCount] records, none when [timeCount] is 0;
    the [i]-th record is the one built by the [forEach] pass at index [i],
    with [startTime] and [endTime] of the first element's [i]-th entry. *)
Theorem reshaper_slots (we : option (list CWA.Element)) :
  covered (elements_of we) ->
  exists recs,
    parseWeatherElements we = Ok recs /\
    length recs = timeCount we /\
    (timeCount we = 0 -> recs = []) /\
    forall i, i < timeCount we ->
      exists first rest en r,
        we = Some (first :: rest) /\ entry_at first i = Some en /\
        nth_error recs i = Some r /\
        startTime r = CWA.startTime en /\ endTime r = CWA.endTime en /\
        forEach i (first :: rest)
          (blank (CWA.startTime en) (CWA.endTime en)) = Ok r.
Proof.
  intros C.
  assert (T : exists recs, parseWeatherElements we = Ok recs).
  { destruct we as [els|]; [apply covered_total; exact C|].
    exists []; reflexivity. }
  destruct T as (recs & H). exists recs.
  destruct (parse_Ok _ _ H) as (L & S).
  split; [exact H|]. split; [exact L|]. split.
  - intros Z. rewrite Z in L. destruct recs; [reflexivity | discriminate L].
  - intros i Hi.
    destruct (S i Hi) as (r & N & B).
    destruct (slot_Ok _ _ _ B) as (first & rest & en & E & A & F).
    exists first, rest, en, r.
    destruct (forEach_times _ _ _ _ F) as (T1 & T2).
    repeat split; assumption.
Qed.

Lemma reshaper_slots_witness :
  exists recs,
    parseWeatherElements (Some [element1 "MinT" (Some "20")]) = Ok recs /\
    length recs = timeCount (Some [element1 "MinT" (Some "20")]) /\
    (timeCount (Some [element1 "MinT" (Some "20")]) = 0 -> recs = []) /\
    forall i, i < timeCount (Some [element1 "MinT" (Some "20")]) ->
      exists first rest en r,
        Some [element1 "MinT" (Some "20")] = Some (first :: rest) /\
        entry_at first i = Some en /\
        nth_error recs i = Some r /\
        startTime r = CWA.startTime en /\ endTime r = CWA.endTime en /\
        forEach i (first :: rest)
          (blank (CWA.startTime en) (CWA.endTime en)) = Ok r.
Proof.
  apply (reshaper_slots (Some [element1 "MinT" (Some "20")])).
  intros e i [<-|[]] Hi. simpl in Hi.
  assert (i = 0) by lia. subst i.
  eexists. split; [reflexivity|]. intros _. discriminate.
Defined.

(** ** C3 *)

(** C3, as stated, fails: three fields carry a suffix, not two.  Whatever
    two fields are set apart, one of the others differs from the upstream
    value. *)
Lemma reshaper_three_suffixes :
  exists r,
    parseWeatherElements (Some three_suffixes) = Ok [r] /\
    rain r = Some "10%" /\ minTemp r = Some "20°C" /\ maxTemp r = Some "30°C" /\
    forall k1 k2 : Kind,
      exists k, k <> k1 /\ k <> k2 /\ field k r <> three_values k.
Proof.
  eexists. split; [reflexivity|]. repeat (split; [reflexivity|]).
  intros k1 k2.
  destruct k1, k2;
    first [ exists PoP; repeat split; discriminate
          | exists MinT; repeat split; discriminate
          | exists MaxT; repeat split; discriminate ].
Qed.

(** C3, amended: in the [i]-th record, the field of kind [k] comes from the
    last element [e] of kind [k], slot [i]: [rain] is its [parameterName]
    followed by "%", [minTemp] and [maxTemp] are it followed by "°C" (three
    fields with a suffix), and [weather], [comfort] and [windSpeed] are it
    unchanged.  A single [MinT] element of value "20" at one slot gives one
    record with [minTemp] "20°C" and the other five fields empty. *)
Theorem reshaper_suffixes :
  (forall (pre post : list CWA.Element) (e : CWA.Element) (k : Kind)
          (recs : list Forecast) (i : nat) (r : Forecast),
     parseWeatherElements (Some (pre ++ e :: post)) = Ok recs ->
     nth_error recs i = Some r ->
     CWA.elementName e = Some (label k) -> absent k post ->
     exists en v,
       entry_at e i = Some en /\ CWA.parameter en = Some v /\
       match k with
       | Wx => weather r = CWA.parameterName v
       | PoP => rain r = Some (JS.concat (CWA.parameterName v) "%")
       | MinT => minTemp r = Some (JS.concat (CWA.parameterName v) "°C")
       | MaxT => maxTemp r = Some (JS.concat (CWA.parameterName v) "°C")
       | CI => comfort r = CWA.parameterName v
       | WS => windSpeed r = CWA.parameterName v
       end) /\
  (forall s e : option string,
     parseWeatherElements
       (Some [CWA.mkElement (Some "MinT")
                (Some [CWA.mkTime s e (Some (CWA.mkParameter (Some "20")))])])
     = Ok [mkForecast s e (Some "") (Some "") (Some "20°C")
             (Some "") (Some "") (Some "")]).
Proof.
  split; [|reflexivity].
  intros pre post e k recs i r H N K A.
  destruct (parse_Ok _ _ H) as (L & S).
  assert (Hi : i < timeCount (Some (pre ++ e :: post))).
  { rewrite <- L. apply nth_error_Some. congruence. }
  destruct (S i Hi) as (r' & N' & B).
  assert (r' = r) by congruence. subst r'.
  destruct (slot_Ok _ _ _ B) as (first & rest & en0 & E & _ & F).
  inversion E as [E']. rewrite <- E' in F.
  destruct (forEach_last k i pre post e _ _ K A F) as (en & v & En & P & Fk).
  exists en, v. split; [exact En|]. split; [exact P|].
  rewrite assign_same in Fk. destruct k; exact Fk.
Qed.

Lemma reshaper_suffixes_witness :
  exists en v,
    entry_at (element1 "PoP" (Some "10")) 0 = Some en /\
    CWA.parameter en = Some v /\
    rain (record1 (Some "") (Some "10%") (Some "") (Some "") (Some "") (Some ""))
    = Some (JS.concat (CWA.parameterName v) "%").
Proof.
  apply (proj1 reshaper_suffixes [] [] (element1 "PoP" (Some "10")) PoP
           [record1 (Some "") (Some "10%") (Some "") (Some "") (Some "") (Some "")]
           0).
  - reflexivity.
  - reflexivity.
  - reflexivity.
  - intros e [].
Defined.

(** ** C4 *)

(** C4, as stated, fails: an element of unknown kind makes the reshaper
    throw when its [time] array is shorter than [timeCount], and as the
    first element it decides how many records there are. *)
Lemma reshaper_stranger_matters :
  ~ recognized stranger /\
  parseWeatherElements (Some [element1 "Wx" (Some "晴")])
  = Ok [record1 (Some "晴") (Some "") (Some "") (Some "") (Some "") (Some "")] /\
  parseWeatherElements (Some [element1 "Wx" (Some "晴"); stranger])
  = Throw TypeError /\
  parseWeatherElements (Some [stranger; element1 "Wx" (Some "晴")]) = Ok [].
Proof.
  split; [|repeat split].
  apply kind_of_None. reflexivity.
Qed.

(** C4, amended: an element of unknown kind that is not the first of the
    array and has a time entry at every slot below [timeCount] is ignored:
    with it or without it the reshaper gives the same result, the same
    records or the same error. *)
Theorem reshaper_ignores_unknown (pre post : list CWA.Element) (u : CWA.Element) :
  pre <> [] ->
  ~ recognized u ->
  timeCount (Some (pre ++ post)) <= time_length u ->
  parseWeatherElements (Some (pre ++ u :: post))
  = parseWeatherElements (Some (pre ++ post)).
Proof.
  intros P K T. destruct pre as [|first pre]; [congruence|].
  unfold parseWeatherElements. rewrite <- !app_comm_cons in *.
  rewrite !timeCount_cons. rewrite timeCount_cons in T.
  apply for_loop_ext. intros j Hj. simpl in Hj |- *.
  rewrite !slot_cons. destruct (entry_at first j); [|reflexivity].
  rewrite !app_comm_cons.
  apply (forEach_skip j (first :: pre) post u); [exact K | lia].
Qed.

Lemma reshaper_ignores_unknown_witness :
  parseWeatherElements
    (Some ([element1 "MinT" (Some "20")] ++
           element1 "UVI" (Some "7") :: [element1 "Wx" (Some "晴")]))
  = parseWeatherElements
      (Some ([element1 "MinT" (Some "20")] ++ [element1 "Wx" (Some "晴")])).
Proof.
  apply (reshaper_ignores_unknown [element1 "MinT" (Some "20")]
           [element1 "Wx" (Some "晴")] (element1 "UVI" (Some "7"))).
  - discriminate.
  - apply kind_of_None. reflexivity.
  - vm_compute. lia.
Defined.

(** ** C9 *)

(** C9, as stated, fails: a missing [time] array does not make the
    reshaper throw when the first element has no time entry, for then the
    loop body never runs. *)
Lemma reshaper_timeless_returns :
  CWA.time (timeless "PoP") = None /\
  parseWeatherElements (Some [timeless "PoP"]) = Ok [] /\
  parseWeatherElements (Some [element0 "Wx"; timeless "PoP"]) = Ok [].
Proof. repeat split. Qed.

(** C9, amended: the callback reads [element.time[i].parameter] before the
    [switch], whatever the kind of the element.  So when some element of the
    array, recognized or not, has fewer time entries than the first one (a
    missing [time] array counting as no entry), the reshaper throws a
    [TypeError]; it returns only if every element has at least [timeCount]
    entries. *)
Theorem reshaper_partial (elements : list CWA.Element) :
  (forall e, In e elements ->
     time_length e < timeCount (Some elements) ->
     parseWeatherElements (Some elements) = Throw TypeError) /\
  (forall recs, parseWeatherElements (Some elements) = Ok recs ->
     forall e, In e elements -> timeCount (Some elements) <= time_length e).
Proof.
  assert (R : forall recs, parseWeatherElements (Some elements) = Ok recs ->
              forall e, In e elements ->
                timeCount (Some elements) <= time_length e).
  { intros recs H e He.
    destruct (le_lt_dec (timeCount (Some elements)) (time_length e)) as [L|L];
      [exact L|exfalso].
    destruct (parse_Ok_covered _ _ H e _ He L) as (en & En & _).
    assert (N : entry_at e (time_length e) = None) by (apply entry_at_None; lia).
    congruence. }
  split; [|exact R].
  intros e He L.
  destruct (parseWeatherElements (Some elements)) as [recs|x] eqn:H.
  - specialize (R recs eq_refl e He). lia.
  - f_equal. eapply parse_throws; eauto.
Qed.

Lemma reshaper_partial_witness :
  parseWeatherElements (Some [element1 "Wx" (Some "晴"); timeless "UVI"])
  = Throw TypeError.
Proof.
  apply (proj1 (reshaper_partial [element1 "Wx" (Some "晴"); timeless "UVI"])
           (timeless "UVI")).
  - right; left; reflexivity.
  - vm_compute. lia.
Defined.

(** ** Running a handler *)

Lemma decodeURIComponent_throws (s : string) (x : Exn) :
  decodeURIComponent s = Throw x -> x = URIError.
Proof.
  unfold decodeURIComponent.
  destruct (URI.unescape s) as [us|]; [|intros H; inversion H; reflexivity].
  destruct (URI.utf8 0 0 0 us); intros H; inversion H; reflexivity.
Qed.

Lemma bindIO_lift_Ok {A B} (a : A) (k : A -> IO B) (w : World) :
  bindIO (lift (Ok a)) k w = k a w.
Proof. unfold bindIO, lift. destruct (k a w). reflexivity. Qed.

Ltac unfold_handler :=
  unfold try_catch, fetchWeatherDataset, axios_get, bindIO, lift, ret,
    first_location_result, all_locations_result, is2xx, buildLocationWeather,
    settle, caught.

Ltac by_cases_on_exn :=
  match goal with
  | x : Exn |- _ => destruct x as [| |[[? [?|]]|]]; reflexivity
  end.

Ltac by_cases_on_reply :=
  match goal with
  | |- context [upstream ?w ?q] =>
      destruct (upstream w q) as [st d|st|]; cbn [reply_of CWA.status];
      [ | destruct ((200 <=? st) && (st <? 300)); reflexivity | reflexivity ]
  end.

(** With the key set, the fixed-region handler sends one request and
    answers by its outcome. *)
Lemma getKaohsiungWeather_run (key : option string) (w : World) :
  JS.truthy key = true ->
  getKaohsiungWeather key w =
  ([mkQuery key "高雄市"],
   settle (first_location_result "無法取得高雄市天氣資料"
             (upstream w (mkQuery key "高雄市")))).
Proof.
  intros T. unfold getKaohsiungWeather. unfold_handler. rewrite T. cbn [negb].
  by_cases_on_reply.
  destruct ((200 <=? st) && (st <? 300)); [|reflexivity].
  cbn [CWA.data JS.deref].
  destruct (CWA.records d) as [records|]; [|reflexivity].
  cbn [JS.deref].
  destruct (CWA.location records) as [[|loc rest]|]; try reflexivity.
  cbn [nth_error].
  destruct (parseWeatherElements (CWA.weatherElement loc)) as [fs|x];
    [reflexivity | by_cases_on_exn].
Qed.

(** The same for the named-region handler, once the name has passed the
    allow-list. *)
Lemma getCityWeather_run (key p : option string) (name : string) (w : World) :
  JS.truthy key = true ->
  decodeURIComponent (JS.or_else p "") = Ok name ->
  includes ALLOWED_CITY_NAMES name = true ->
  getCityWeather key p w =
  ([mkQuery key name],
   settle (first_location_result ("無法取得 " ++ name ++ " 天氣資料")
             (upstream w (mkQuery key name)))).
Proof.
  intros T D I. unfold getCityWeather. unfold_handler. rewrite T, D, I.
  cbn [negb].
  by_cases_on_reply.
  destruct ((200 <=? st) && (st <? 300)); [|reflexivity].
  cbn [CWA.data JS.deref].
  destruct (CWA.records d) as [records|]; [|reflexivity].
  cbn [JS.deref].
  destruct (CWA.location records) as [[|loc rest]|]; try reflexivity.
  cbn [nth_error].
  destruct (parseWeatherElements (CWA.weatherElement loc)) as [fs|x];
    [reflexivity | by_cases_on_exn].
Qed.

Lemma getAllCityWeather_run (key : option string) (w : World) :
  JS.truthy key = true ->
  getAllCityWeather key w =
  ([mkQuery key ""],
   settle (all_locations_result (upstream w (mkQuery key "")))).
Proof.
  intros T. unfold getAllCityWeather. unfold_handler. rewrite T. cbn [negb].
  by_cases_on_reply.
  destruct ((200 <=? st) && (st <? 300)); [|reflexivity].
  cbn [CWA.data JS.deref].
  destruct (CWA.records d) as [records|]; [|reflexivity].
  cbn [JS.deref].
  destruct (CWA.location records) as [[|loc rest]|]; try reflexivity.
  cbn [length Nat.eqb].
  destruct (map_throwing _ (loc :: rest)) as [ws|x];
    [reflexivity | by_cases_on_exn].
Qed.

(** Without the key no handler gets past its first test. *)
Lemma getKaohsiungWeather_unset (key : option string) (w : World) :
  JS.truthy key = false ->
  getKaohsiungWeather key w =
  ([], Ok (mkRes 500
             (Failure "伺服器設定錯誤" "請在 .env 檔案中設定 CWA_API_KEY" None))).
Proof. intros T. unfold getKaohsiungWeather, try_catch. rewrite T. reflexivity. Qed.

Lemma getCityWeather_unset (key p : option string) (w : World) :
  JS.truthy key = false ->
  getCityWeather key p w =
  ([], Ok (mkRes 500
             (Failure "伺服器設定錯誤" "請在 .env 檔案中設定 CWA_API_KEY" None))).
Proof. intros T. unfold getCityWeather, try_catch. rewrite T. reflexivity. Qed.

Lemma getAllCityWeather_unset (key : option string) (w : World) :
  JS.truthy key = false ->
  getAllCityWeather key w =
  ([], Ok (mkRes 500
             (Failure "伺服器設定錯誤" "請在 .env 檔案中設定 CWA_API_KEY" None))).
Proof. intros T. unfold getAllCityWeather, try_catch. rewrite T. reflexivity. Qed.

(** A path parameter that does not decode is answered by the [catch]
    clause. *)
Lemma getCityWeather_malformed (key p : option string) (w : World) :
  JS.truthy key = true ->
  decodeURIComponent (JS.or_else p "") = Throw URIError ->
  getCityWeather key p w = ([], caught URIError).
Proof.
  intros T D. unfold getCityWeather, try_catch. rewrite T, D. reflexivity.
Qed.

Lemma getCityWeather_invalid (key p : option string) (name : string) (w : World) :
  JS.truthy key = true ->
  decodeURIComponent (JS.or_else p "") = Ok name ->
  includes ALLOWED_CITY_NAMES name = false ->
  getCityWeather key p w =
  ([], Ok (mkRes 400
             (Failure "不支援的縣市"
                ("請使用以下縣市名稱：" ++ join "、" ALLOWED_CITY_NAMES) None))).
Proof.
  intros T D I. unfold getCityWeather, try_catch. rewrite T, D. cbn [negb].
  rewrite bindIO_lift_Ok, I. reflexivity.
Qed.

(** ** C5 *)

Lemma includes_In (l : list string) (s : string) :
  includes l s = true <-> In s l.
Proof.
  unfold includes. rewrite existsb_exists. split.
  - intros (x & I & E). apply String.eqb_eq in E. subst. exact I.
  - intros I. exists s. split; [exact I | apply String.eqb_refl].
Qed.

Lemma includes_not_In (l : list string) (s : string) :
  includes l s = false <-> ~ In s l.
Proof.
  rewrite <- includes_In. destruct (includes l s); split; intros H.
  - discriminate.
  - exfalso. apply H. reflexivity.
  - discriminate.
  - reflexivity.
Qed.

Lemma plain_decodes (s : string) :
  plain s = true ->
  exists us, URI.unescape s = Some us /\ URI.utf8 0 0 0 us = Some s.
Proof.
  induction s as [|c rest IH]; simpl; intros P; [eauto|].
  apply andb_prop in P. destruct P as (C & P).
  destruct (Ascii.eqb c "%"); [discriminate C|].
  destruct (IH P) as (us & U & V). rewrite U. simpl.
  eexists. split; [reflexivity|]. simpl. rewrite V. reflexivity.
Qed.

Lemma decode_plain (s : string) :
  plain s = true -> decodeURIComponent s = Ok s.
Proof.
  intros P. destruct (plain_decodes s P) as (us & U & V).
  unfold decodeURIComponent. rewrite U, V. reflexivity.
Qed.

Lemma or_else_empty (s : string) : JS.or_else (Some s) "" = s.
Proof. destruct s; reflexivity. Qed.

(** No name of the allow-list has a percent sign. *)
Lemma allowed_plain (name : string) :
  In name ALLOWED_CITY_NAMES -> plain name = true.
Proof.
  intros I. unfold ALLOWED_CITY_NAMES in I.
  repeat (destruct I as [<-|I]; [reflexivity|]). destruct I.
Qed.

Lemma caught_error (x : Exn) (res : Res) :
  caught x = Ok res -> error_of (json res) <> Some "不支援的縣市".
Proof.
  destruct x as [| |[[st [d|]]|]]; simpl; intros H; inversion H; subst;
    simpl; discriminate.
Qed.

Lemma first_location_error (missing : string) (o : Outcome) (res : Res) :
  settle (first_location_result missing o) = Ok res ->
  error_of (json res) <> Some "不支援的縣市".
Proof.
  unfold first_location_result.
  destruct o as [st d|st|]; [| |apply caught_error].
  2:{ destruct (is2xx st); apply caught_error. }
  destruct (is2xx st); [|apply caught_error].
  destruct (CWA.records d) as [records|]; [|apply caught_error].
  destruct (CWA.location records) as [[|location rest]|];
    try (simpl; intros H; inversion H; subst; simpl; discriminate).
  destruct (parseWeatherElements (CWA.weatherElement location));
    [simpl; intros H; inversion H; subst; simpl; discriminate | apply caught_error].
Qed.

(** C5, as stated, fails: a name outside the allow-list is not always
    answered 400.  With the API key unset it is answered 500.  With the key
    set, the handler decodes the name once more: a name that does not decode
    is answered 500, and a name that decodes to one of the allow-list is
    accepted and forwarded. *)
Lemma invalid_name_not_always_400 :
  (~ In "東京都" ALLOWED_CITY_NAMES /\
   getCityWeather None (Some "東京都") silent =
   ([], Ok (mkRes 500
              (Failure "伺服器設定錯誤" "請在 .env 檔案中設定 CWA_API_KEY" None)))) /\
  (~ In "高雄市%" ALLOWED_CITY_NAMES /\
   getCityWeather (Some "CWA-KEY") (Some "高雄市%") silent =
   ([], Ok (mkRes 500 (Failure "伺服器錯誤" "無法取得天氣資料，請稍後再試" None)))) /\
  (~ In "%E9%AB%98%E9%9B%84%E5%B8%82" ALLOWED_CITY_NAMES /\
   getCityWeather (Some "CWA-KEY") (Some "%E9%AB%98%E9%9B%84%E5%B8%82") silent =
   ([mkQuery (Some "CWA-KEY") "高雄市"],
    Ok (mkRes 500 (Failure "伺服器錯誤" "無法取得天氣資料，請稍後再試" None)))).
Proof.
  repeat split; try reflexivity; apply includes_not_In; reflexivity.
Qed.

(** C5, amended: let [name] be the path parameter as the router hands it
    to the handler, URL-decoded (the empty string when there is none).  If
    [name] is one of the 22 names of the allow-list, the handler never
    answers with the validation error.  If it is not (the empty string is
    not), has no percent sign and the API key is set, the handler answers 400
    with a message that lists the whole allow-list, and sends nothing to the
    upstream.  In general, with the key set, the handler gives that answer
    exactly when its own decoding of [name] succeeds with a result outside
    the allow-list. *)
Theorem allow_list_check (key p : option string) (w : World) :
  let name := JS.or_else p "" in
  length ALLOWED_CITY_NAMES = 22 /\ ~ In "" ALLOWED_CITY_NAMES /\
  (In name ALLOWED_CITY_NAMES ->
   forall log res,
     getCityWeather key p w = (log, Ok res) ->
     error_of (json res) <> Some "不支援的縣市") /\
  (JS.truthy key = true -> ~ In name ALLOWED_CITY_NAMES -> plain name = true ->
   getCityWeather key p w =
   ([], Ok (mkRes 400
              (Failure "不支援的縣市"
                 ("請使用以下縣市名稱：" ++ join "、" ALLOWED_CITY_NAMES) None)))) /\
  (JS.truthy key = true ->
   (getCityWeather key p w =
    ([], Ok (mkRes 400
               (Failure "不支援的縣市"
                  ("請使用以下縣市名稱：" ++ join "、" ALLOWED_CITY_NAMES) None)))
    <-> exists decoded,
          decodeURIComponent name = Ok decoded /\
          ~ In decoded ALLOWED_CITY_NAMES)).
Proof.
  intros name. split; [reflexivity|].
  split; [apply includes_not_In; reflexivity|]. split; [|split].
  - intros I log res H.
    assert (D : decodeURIComponent (JS.or_else p "") = Ok name)
      by (apply decode_plain, allowed_plain, I).
    apply includes_In in I. destruct (JS.truthy key) eqn:T.
    + rewrite (getCityWeather_run _ _ _ _ T D I) in H. inversion H as [[L R]].
      eapply first_location_error; eauto.
    + rewrite (getCityWeather_unset _ _ _ T) in H. inversion H; subst.
      simpl; discriminate.
  - intros T I P. apply includes_not_In in I.
    apply (getCityWeather_invalid _ _ name _ T); [apply decode_plain, P | exact I].
  - intros T. split.
    + intros H. fold name.
      destruct (decodeURIComponent name) as [decoded|x] eqn:D.
      * exists decoded. split; [reflexivity|]. apply includes_not_In.
        destruct (includes ALLOWED_CITY_NAMES decoded) eqn:I; [|reflexivity].
        rewrite (getCityWeather_run _ _ _ _ T D I) in H. discriminate H.
      * pose proof (decodeURIComponent_throws _ _ D); subst x.
        rewrite (getCityWeather_malformed _ _ _ T D) in H. discriminate H.
    + intros (decoded & D & I). apply includes_not_In in I.
      apply (getCityWeather_invalid _ _ _ _ T D I).
Qed.

Lemma allow_list_check_witness :
  (forall log res,
     getCityWeather (Some "CWA-KEY") (Some "高雄市") silent = (log, Ok res) ->
     error_of (json res) <> Some "不支援的縣市") /\
  getCityWeather (Some "CWA-KEY") (Some "高雄巿") silent =
  ([], Ok (mkRes 400
             (Failure "不支援的縣市"
                ("請使用以下縣市名稱：" ++ join "、" ALLOWED_CITY_NAMES) None))) /\
  getCityWeather (Some "CWA-KEY") (Some "%E6%9D%B1%E4%BA%AC%E9%83%BD") silent =
  ([], Ok (mkRes 400
             (Failure "不支援的縣市"
                ("請使用以下縣市名稱：" ++ join "、" ALLOWED_CITY_NAMES) None))).
Proof.
  split; [|split].
  - apply (proj1 (proj2 (proj2
             (allow_list_check (Some "CWA-KEY") (Some "高雄市") silent)))).
    apply includes_In. reflexivity.
  - apply (proj1 (proj2 (proj2 (proj2
             (allow_list_check (Some "CWA-KEY") (Some "高雄巿") silent))))).
    + reflexivity.
    + apply includes_not_In. reflexivity.
    + reflexivity.
  - apply (proj2 (proj2 (proj2 (proj2
             (allow_list_check (Some "CWA-KEY")
                (Some "%E6%9D%B1%E4%BA%AC%E9%83%BD") silent))))).
    + reflexivity.
    + exists "東京都". split; [reflexivity|]. apply includes_not_In. reflexivity.
Defined.

(** ** C6 *)

(** C6: with the API key unset (or empty), each of the three data
    endpoints answers 500 with the same configuration-error payload, sends
    nothing to the upstream and does not throw; the root and the health
    endpoints still answer 200. *)
Theorem unset_key (key : option string) (w : World) (p : option string) :
  JS.truthy key = false ->
  (forall route,
     route = WeatherKaohsiung \/ route = WeatherCity p \/ route = WeatherAll ->
     app key route w =
     ([], Ok (mkRes 500
                (Failure "伺服器設定錯誤" "請在 .env 檔案中設定 CWA_API_KEY" None)))) /\
  (exists payload, app key Root w = ([], Ok (mkRes 200 payload))) /\
  app key ApiHealth w = ([], Ok (mkRes 200 (Health "OK" (now w)))).
Proof.
  intros T. split; [|split; [eexists; reflexivity | reflexivity]].
  intros route [E | [E | E]]; subst route; simpl.
  - apply getKaohsiungWeather_unset, T.
  - apply getCityWeather_unset, T.
  - apply getAllCityWeather_unset, T.
Qed.

Lemma unset_key_witness :
  (forall route,
     route = WeatherKaohsiung \/ route = WeatherCity (Some "高雄市") \/
     route = WeatherAll ->
     app None route silent =
     ([], Ok (mkRes 500
                (Failure "伺服器設定錯誤" "請在 .env 檔案中設定 CWA_API_KEY" None)))) /\
  (exists payload, app None Root silent = ([], Ok (mkRes 200 payload))) /\
  app None ApiHealth silent = ([], Ok (mkRes 200 (Health "OK" (now silent)))).
Proof.
  apply (unset_key None silent (Some "高雄市")). reflexivity.
Defined.

(** ** C8 *)

Lemma settle_forwards (f : Outcome -> result Res) (w : World) (q : Query) :
  f NoReply = Throw (AxiosError None) ->
  (forall st d, is2xx st = false ->
     f (Reply st d) = Throw (AxiosError (Some (CWA.mkResponse st (Some d))))) ->
  forwards_failure w q ([q], settle (f (upstream w q))).
Proof.
  intros N R. split.
  - intros st body U S. rewrite U, (R _ _ S). reflexivity.
  - intros U. rewrite U, N. reflexivity.
Qed.

Lemma first_location_rejected (missing : string) (st : nat) (d : CWA.Body) :
  is2xx st = false ->
  first_location_result missing (Reply st d)
  = Throw (AxiosError (Some (CWA.mkResponse st (Some d)))).
Proof. intros E. simpl. rewrite E. reflexivity. Qed.

(** C8, as stated, fails: a reply with a status outside 200..299 whose
    body is [null] is not forwarded.  The [catch] clause reads
    [error.response.data.message], which throws; the exception leaves the
    handler and no answer is sent. *)
Lemma null_error_body_not_forwarded :
  upstream (nulled 503) (mkQuery (Some "CWA-KEY") "高雄市") = ReplyNull 503 /\
  is2xx 503 = false /\
  getKaohsiungWeather (Some "CWA-KEY") (nulled 503) =
  ([mkQuery (Some "CWA-KEY") "高雄市"], Throw TypeError) /\
  getCityWeather (Some "CWA-KEY") (Some "高雄市") (nulled 503) =
  ([mkQuery (Some "CWA-KEY") "高雄市"], Throw TypeError) /\
  getAllCityWeather (Some "CWA-KEY") (nulled 503) =
  ([mkQuery (Some "CWA-KEY") ""], Throw TypeError).
Proof. repeat split. Qed.

(** C8, amended: each of the three handlers, once past its checks (API key
    set; for the named-region handler, a decoded name of the allow-list),
    sends one request and tells the two failures of the upstream apart: (1)
    if the upstream answers with a status outside 200..299 and a body that
    is not [null], the handler answers with that same status and puts the
    upstream body in [details]; (2) if there is no answer, the handler
    answers 500 with the generic message and no [details]; in both cases
    that request is the only one sent. *)
Theorem upstream_failures (key : option string) (w : World) :
  JS.truthy key = true ->
  forwards_failure w (mkQuery key "高雄市") (getKaohsiungWeather key w) /\
  forwards_failure w (mkQuery key "") (getAllCityWeather key w) /\
  forall p name,
    decodeURIComponent (JS.or_else p "") = Ok name ->
    In name ALLOWED_CITY_NAMES ->
    forwards_failure w (mkQuery key name) (getCityWeather key p w).
Proof.
  intros T. split; [|split].
  - rewrite (getKaohsiungWeather_run _ _ T).
    apply settle_forwards; [reflexivity|]. apply first_location_rejected.
  - rewrite (getAllCityWeather_run _ _ T).
    apply settle_forwards; [reflexivity|].
    intros st d E. simpl. rewrite E. reflexivity.
  - intros p name D I. apply includes_In in I.
    rewrite (getCityWeather_run _ _ _ _ T D I).
    apply settle_forwards; [reflexivity|]. apply first_location_rejected.
Qed.

Lemma upstream_failures_witness :
  (getKaohsiungWeather (Some "CWA-KEY")
     (answering 401 (CWA.mkBody None (Some "Unauthorized"))) =
   ([mkQuery (Some "CWA-KEY") "高雄市"],
    Ok (mkRes 401
          (Failure "CWA API 錯誤" "Unauthorized"
             (Some (CWA.mkBody None (Some "Unauthorized"))))))) /\
  (getAllCityWeather (Some "CWA-KEY")
     (answering 401 (CWA.mkBody None (Some "Unauthorized"))) =
   ([mkQuery (Some "CWA-KEY") ""],
    Ok (mkRes 401
          (Failure "CWA API 錯誤" "Unauthorized"
             (Some (CWA.mkBody None (Some "Unauthorized"))))))) /\
  (getCityWeather (Some "CWA-KEY") (Some "臺南市")
     (answering 401 (CWA.mkBody None (Some "Unauthorized"))) =
   ([mkQuery (Some "CWA-KEY") "臺南市"],
    Ok (mkRes 401
          (Failure "CWA API 錯誤" "Unauthorized"
             (Some (CWA.mkBody None (Some "Unauthorized"))))))) /\
  (getCityWeather (Some "CWA-KEY") (Some "臺南市") silent =
   ([mkQuery (Some "CWA-KEY") "臺南市"],
    Ok (mkRes 500 (Failure "伺服器錯誤" "無法取得天氣資料，請稍後再試" None)))).
Proof.
  destruct (upstream_failures (Some "CWA-KEY")
              (answering 401 (CWA.mkBody None (Some "Unauthorized"))) eq_refl)
    as (K & A & C).
  destruct (upstream_failures (Some "CWA-KEY") silent eq_refl) as (_ & _ & C').
  split; [|split; [|split]].
  - apply (proj1 K 401 (CWA.mkBody None (Some "Unauthorized"))); reflexivity.
  - apply (proj1 A 401 (CWA.mkBody None (Some "Unauthorized"))); reflexivity.
  - apply (proj1 (C (Some "臺南市") "臺南市" eq_refl
                    (proj1 (includes_In ALLOWED_CITY_NAMES "臺南市") eq_refl))
             401 (CWA.mkBody None (Some "Unauthorized")));
      reflexivity.
  - apply (proj2 (C' (Some "臺南市") "臺南市" eq_refl
                    (proj1 (includes_In ALLOWED_CITY_NAMES "臺南市") eq_refl))).
    reflexivity.
Defined.

(** ** [map] with a throwing callback *)

Lemma map_throwing_Ok {A B} (f : A -> result B) (l : list A) :
  forall ys, map_throwing f l = Ok ys ->
  length ys = length l /\
  forall i x, nth_error l i = Some x ->
    exists y, f x = Ok y /\ nth_error ys i = Some y.
Proof.
  induction l as [|a l IH]; intros ys H; simpl in H.
  - inversion H; subst. split; [reflexivity|]. intros [|i] x N; discriminate N.
  - inv_bind H. rename a0 into y. inv_bind H. rename a0 into ys'.
    inversion H; subst. destruct (IH _ Ha0) as (L & N).
    split; [simpl; congruence|].
    intros [|i] x Nx; simpl in Nx.
    + inversion Nx; subst. exists y. split; [exact Ha | reflexivity].
    + apply N, Nx.
Qed.

Lemma map_throwing_total {A B} (f : A -> result B) (l : list A) :
  (forall x, In x l -> exists y, f x = Ok y) ->
  exists ys, map_throwing f l = Ok ys.
Proof.
  induction l as [|a l IH]; intros H; simpl; [eauto|].
  destruct (H a (or_introl eq_refl)) as (y & ->). simpl.
  destruct IH as (ys & ->); [intros x Hx; apply H; right; exact Hx|].
  simpl. eauto.
Qed.

Lemma buildLocationWeather_Ok (location : CWA.Location) (dd : option string)
    (fs : list Forecast) :
  parseWeatherElements (CWA.weatherElement location) = Ok fs ->
  buildLocationWeather location dd =
  Ok (mkLocationWeather (CWA.locationName location) dd fs).
Proof. intros H. unfold buildLocationWeather. rewrite H. reflexivity. Qed.

Lemma buildLocationWeather_inv (location : CWA.Location) (dd : option string)
    (lw : LocationWeather) :
  buildLocationWeather location dd = Ok lw ->
  exists fs, parseWeatherElements (CWA.weatherElement location) = Ok fs /\
             lw = mkLocationWeather (CWA.locationName location) dd fs.
Proof.
  unfold buildLocationWeather. intros H. inv_bind H.
  inversion H; subst. eauto.
Qed.

(** ** C7 *)

(** C7, as stated, fails.  Without the API key the handler fetches
    nothing.  With it, when the upstream returns a location, the handler
    answers neither 404 nor success but 500 if reshaping that location
    throws; and a 2xx body without [records] is answered 500, not 404. *)
Lemma all_regions_not_always :
  getAllCityWeather None (answering 200 (dataset [taipei])) =
  ([], Ok (mkRes 500
             (Failure "伺服器設定錯誤" "請在 .env 檔案中設定 CWA_API_KEY" None))) /\
  getAllCityWeather (Some "CWA-KEY") (answering 200 (dataset [ragged_location])) =
  ([mkQuery (Some "CWA-KEY") ""],
   Ok (mkRes 500 (Failure "伺服器錯誤" "無法取得天氣資料，請稍後再試" None))) /\
  getAllCityWeather (Some "CWA-KEY") (answering 200 (CWA.mkBody None None)) =
  ([mkQuery (Some "CWA-KEY") ""],
   Ok (mkRes 500 (Failure "伺服器錯誤" "無法取得天氣資料，請稍後再試" None))).
Proof. repeat split. Qed.

(** C7, amended: with the API key set, the all-regions handler sends one
    request, with an empty region filter.  When the upstream answers 2xx
    with a body that has [records]: if [records.location] is missing or
    empty the handler answers 404; otherwise, if reshaping throws for no
    location, it answers 200 with one record per location, in the upstream's
    order, the [i]-th carrying the [i]-th location's name, the dataset
    description as [updateTime] and that location's reshaped forecasts. *)
Theorem all_regions (key : option string) (w : World) (st : nat)
    (body : CWA.Body) (records : CWA.Records) (locations : list CWA.Location) :
  JS.truthy key = true ->
  upstream w (mkQuery key "") = Reply st body -> is2xx st = true ->
  CWA.records body = Some records ->
  locations = match CWA.location records with Some l => l | None => [] end ->
  fst (getAllCityWeather key w) = [mkQuery key ""] /\
  (locations = [] ->
   getAllCityWeather key w =
   ([mkQuery key ""],
    Ok (mkRes 404 (Failure "查無資料" "無法取得全縣市天氣資料" None)))) /\
  (locations <> [] ->
   (forall l, In l locations ->
      exists fs, parseWeatherElements (CWA.weatherElement l) = Ok fs) ->
   exists ws,
     getAllCityWeather key w =
     ([mkQuery key ""], Ok (mkRes 200 (Success (Many ws)))) /\
     length ws = length locations /\
     forall i l, nth_error locations i = Some l ->
       exists fs,
         parseWeatherElements (CWA.weatherElement l) = Ok fs /\
         nth_error ws i =
         Some (mkLocationWeather (CWA.locationName l)
                 (CWA.datasetDescription records) fs)).
Proof.
  intros T U S R L. rewrite (getAllCityWeather_run _ _ T), U.
  unfold all_locations_result. rewrite S, R.
  split; [reflexivity|]. split.
  - intros E. rewrite E in L.
    destruct (CWA.location records) as [[|l rest]|]; try reflexivity.
    discriminate L.
  - intros N P.
    destruct (CWA.location records) as [[|l rest]|];
      try (exfalso; apply N; exact L).
    subst locations.
    destruct (map_throwing_total
                (fun l => buildLocationWeather l (CWA.datasetDescription records))
                (l :: rest)) as (ws & M).
    { intros x Hx. destruct (P x Hx) as (fs & F).
      eexists. apply buildLocationWeather_Ok, F. }
    rewrite M. exists ws. split; [reflexivity|].
    destruct (map_throwing_Ok _ _ _ M) as (Len & Nth).
    split; [exact Len|].
    intros i x Nx. destruct (Nth i x Nx) as (lw & B & Nw).
    destruct (buildLocationWeather_inv _ _ _ B) as (fs & F & ->).
    exists fs. split; assumption.
Qed.

Lemma all_regions_witness :
  getAllCityWeather (Some "CWA-KEY") (answering 200 (dataset [])) =
  ([mkQuery (Some "CWA-KEY") ""],
   Ok (mkRes 404 (Failure "查無資料" "無法取得全縣市天氣資料" None))) /\
  exists ws,
    getAllCityWeather (Some "CWA-KEY") (answering 200 (dataset [taipei])) =
    ([mkQuery (Some "CWA-KEY") ""], Ok (mkRes 200 (Success (Many ws)))) /\
    length ws = length [taipei] /\
    forall i l, nth_error [taipei] i = Some l ->
      exists fs,
        parseWeatherElements (CWA.weatherElement l) = Ok fs /\
        nth_error ws i =
        Some (mkLocationWeather (CWA.locationName l)
                (Some "三十六小時天氣預報") fs).
Proof.
  split.
  - apply (proj1 (proj2
             (all_regions (Some "CWA-KEY") (answering 200 (dataset [])) 200
                (dataset [])
                (CWA.mkRecords (Some "三十六小時天氣預報") (Some [])) []
                eq_refl eq_refl eq_refl eq_refl eq_refl))).
    reflexivity.
  - apply (proj2 (proj2
             (all_regions (Some "CWA-KEY") (answering 200 (dataset [taipei])) 200
                (dataset [taipei])
                (CWA.mkRecords (Some "三十六小時天氣預報") (Some [taipei])) [taipei]
                eq_refl eq_refl eq_refl eq_refl eq_refl))).
    + discriminate.
    + intros l [<-|[]]. eexists. reflexivity.
Defined.

(** ** C10 *)

(** C10, as stated, fails: the upstream response has a location, and the
    single-region handlers answer 500 when reshaping it throws, and the
    upstream's own status when that is not 2xx. *)
Lemma single_region_not_always :
  getKaohsiungWeather (Some "CWA-KEY") (answering 200 (dataset [ragged_location])) =
  ([mkQuery (Some "CWA-KEY") "高雄市"],
   Ok (mkRes 500 (Failure "伺服器錯誤" "無法取得天氣資料，請稍後再試" None))) /\
  getCityWeather (Some "CWA-KEY") (Some "高雄市")
    (answering 200 (dataset [ragged_location])) =
  ([mkQuery (Some "CWA-KEY") "高雄市"],
   Ok (mkRes 500 (Failure "伺服器錯誤" "無法取得天氣資料，請稍後再試" None))) /\
  getKaohsiungWeather (Some "CWA-KEY") (answering 503 (dataset [taipei])) =
  ([mkQuery (Some "CWA-KEY") "高雄市"],
   Ok (mkRes 503 (Failure "CWA API 錯誤" "無法取得天氣資料" (Some (dataset [taipei]))))).
Proof. repeat split. Qed.

(** C10, amended: when a single-region handler sends its request (the API
    key is set and, for the named-region handler, the decoded name is in the
    allow-list) and the upstream answers 2xx with at least one location
    whose reshaping does not throw, the handler answers 200 and the [city] of
    its data is the [locationName] of that first location, whatever region
    was asked for. *)
Theorem first_location_unverified (key : option string) (w : World) (st : nat)
    (body : CWA.Body) (records : CWA.Records) (location : CWA.Location)
    (rest : list CWA.Location) (fs : list Forecast) :
  JS.truthy key = true -> is2xx st = true ->
  CWA.records body = Some records ->
  CWA.location records = Some (location :: rest) ->
  parseWeatherElements (CWA.weatherElement location) = Ok fs ->
  (upstream w (mkQuery key "高雄市") = Reply st body ->
   getKaohsiungWeather key w =
   ([mkQuery key "高雄市"],
    Ok (mkRes 200
          (Success (One (mkLocationWeather (CWA.locationName location)
                           (CWA.datasetDescription records) fs)))))) /\
  (forall p name,
     decodeURIComponent (JS.or_else p "") = Ok name ->
     In name ALLOWED_CITY_NAMES ->
     upstream w (mkQuery key name) = Reply st body ->
     getCityWeather key p w =
     ([mkQuery key name],
      Ok (mkRes 200
            (Success (One (mkLocationWeather (CWA.locationName location)
                             (CWA.datasetDescription records) fs)))))).
Proof.
  intros T S R L F. split.
  - intros U. rewrite (getKaohsiungWeather_run _ _ T), U.
    unfold first_location_result. rewrite S, R, L, F. reflexivity.
  - intros p name D I U. apply includes_In in I.
    rewrite (getCityWeather_run _ _ _ _ T D I), U.
    unfold first_location_result. rewrite S, R, L, F. reflexivity.
Qed.

Lemma first_location_unverified_witness :
  getKaohsiungWeather (Some "CWA-KEY") (answering 200 (dataset [taipei])) =
  ([mkQuery (Some "CWA-KEY") "高雄市"],
   Ok (mkRes 200
         (Success
            (One (mkLocationWeather (Some "臺北市") (Some "三十六小時天氣預報")
                    [record1 (Some "") (Some "") (Some "20°C") (Some "") (Some "")
                       (Some "")]))))).
Proof.
  apply (proj1 (first_location_unverified (Some "CWA-KEY")
                  (answering 200 (dataset [taipei])) 200
                  (dataset [taipei])
                  (CWA.mkRecords (Some "三十六小時天氣預報") (Some [taipei]))
                  taipei [] _ eq_refl eq_refl eq_refl eq_refl eq_refl)).
  reflexivity.
Defined.

(** * Part IV: further properties of the handlers and of the reshaper *)

(** ** What a handler sends *)

Lemma app_sends (key : option string) (route : Route) (name : string)
    (f : Outcome -> result Res) (w : World) :
  JS.truthy key = true -> Sends route name f ->
  app key route w =
  ([mkQuery key name], settle (f (upstream w (mkQuery key name)))).
Proof.
  intros T S. destruct S as [|p name D I|]; simpl.
  - apply getKaohsiungWeather_run, T.
  - apply includes_In in I. apply (getCityWeather_run _ _ _ _ T D I).
  - apply getAllCityWeather_run, T.
Qed.

(** Either a route answers without a request, or its handler sends. *)
Lemma app_cases (key : option string) (route : Route) (w : World) :
  (exists res, app key route w = ([], Ok res) /\
               (forall d, json res <> Success d) /\
               (forall e m d, json res = Failure e m d -> statusCode res <> 200)) \/
  (JS.truthy key = true /\ exists name f, Sends route name f).
Proof.
  assert (Q : forall res : Res,
            (forall d, json res <> Success d) ->
            (forall e m d, json res = Failure e m d -> statusCode res <> 200) ->
            exists res', ([] : list Query, Ok res) = ([], Ok res') /\
              (forall d, json res' <> Success d) /\
              (forall e m d, json res' = Failure e m d -> statusCode res' <> 200)).
  { intros res A B. exists res. auto. }
  destruct route as [| | |p| |]; simpl;
    try (left; apply Q; simpl; [discriminate | discriminate]).
  - destruct (JS.truthy key) eqn:T.
    + right. split; [reflexivity|]. do 2 eexists. constructor.
    + left. rewrite (getKaohsiungWeather_unset _ _ T).
      apply Q; simpl; [discriminate | intros; discriminate].
  - destruct (JS.truthy key) eqn:T.
    + destruct (decodeURIComponent (JS.or_else p "")) as [name|x] eqn:D.
      * destruct (includes ALLOWED_CITY_NAMES name) eqn:I.
        -- right. split; [reflexivity|]. do 2 eexists.
           apply (sends_city p name D). apply includes_In, I.
        -- left. rewrite (getCityWeather_invalid _ _ _ _ T D I).
           apply Q; simpl; [discriminate | intros; discriminate].
      * pose proof (decodeURIComponent_throws _ _ D); subst x.
        left. rewrite (getCityWeather_malformed _ _ _ T D).
        apply Q; simpl; [discriminate | intros; discriminate].
    + left. rewrite (getCityWeather_unset _ _ _ T).
      apply Q; simpl; [discriminate | intros; discriminate].
  - destruct (JS.truthy key) eqn:T.
    + right. split; [reflexivity|]. do 2 eexists. constructor.
    + left. rewrite (getAllCityWeather_unset _ _ T).
      apply Q; simpl; [discriminate | intros; discriminate].
Qed.

Lemma app_log (key : option string) (route : Route) (w : World) (q : Query) :
  In q (fst (app key route w)) ->
  JS.truthy key = true /\
  exists name f, Sends route name f /\ q = mkQuery key name.
Proof.
  intros H. destruct (app_cases key route w) as [(res & E & _)|(T & name & f & S)].
  - rewrite E in H. destruct H.
  - rewrite (app_sends _ _ _ _ w T S) in H. destruct H as [<-|[]]. eauto.
Qed.

Lemma Sends_name (route : Route) (name : string) (f : Outcome -> result Res) :
  Sends route name f -> name = "" \/ In name ALLOWED_CITY_NAMES.
Proof.
  intros [|p n D I|]; [right | right; exact I | left; reflexivity].
  apply includes_In. reflexivity.
Qed.

(** ** How a [try] block that has sent its request ends *)

Lemma map_throwing_throws {A B} (f : A -> result B) (l : list A) (x : Exn) :
  (forall a y, f a = Throw y -> y = TypeError) ->
  map_throwing f l = Throw x -> x = TypeError.
Proof.
  intros F. induction l as [|a l IH]; simpl; [discriminate|].
  destruct (f a) as [b|y] eqn:E; simpl.
  - destruct (map_throwing f l) as [ys|z]; simpl; [discriminate|].
    intros H. inversion H; subst. apply IH. reflexivity.
  - intros H. inversion H; subst. eapply F; eauto.
Qed.

Lemma map_throwing_In {A B} (f : A -> result B) (l : list A) (a : A) :
  (forall a y, f a = Throw y -> y = TypeError) ->
  In a l -> f a = Throw TypeError -> map_throwing f l = Throw TypeError.
Proof.
  intros F I E.
  destruct (map_throwing f l) as [ys|x] eqn:M.
  - destruct (In_nth_error _ _ I) as (i & N).
    destruct (map_throwing_Ok _ _ _ M) as (_ & P).
    destruct (P i a N) as (y & Y & _). congruence.
  - f_equal. eapply map_throwing_throws; eauto.
Qed.

Lemma buildLocationWeather_throws (location : CWA.Location) (dd : option string)
    (x : Exn) :
  buildLocationWeather location dd = Throw x -> x = TypeError.
Proof.
  unfold buildLocationWeather.
  destruct (parseWeatherElements (CWA.weatherElement location)) eqn:P; simpl;
    [discriminate|].
  intros H. inversion H; subst. eapply parse_throws; eauto.
Qed.

(** The five ways a handler that has sent its request can end. *)
Lemma Sends_answer (route : Route) (name : string) (f : Outcome -> result Res)
    (o : Outcome) :
  Sends route name f ->
  (exists d st body, settle (f o) = Ok (mkRes 200 (Success d)) /\
                     o = Reply st body /\ is2xx st = true) \/
  (exists m st body records,
     settle (f o) = Ok (mkRes 404 (Failure "查無資料" m None)) /\
     o = Reply st body /\ is2xx st = true /\
     CWA.records body = Some records /\
     (CWA.location records = None \/ CWA.location records = Some [])) \/
  settle (f o)
  = Ok (mkRes 500 (Failure "伺服器錯誤" "無法取得天氣資料，請稍後再試" None)) \/
  (exists st body, o = Reply st body /\ is2xx st = false /\
     settle (f o) =
     Ok (mkRes st (Failure "CWA API 錯誤"
                     (JS.or_else (CWA.message body) "無法取得天氣資料")
                     (Some body)))) \/
  (exists st, o = ReplyNull st /\ is2xx st = false /\
              settle (f o) = Throw TypeError).
Proof.
  intros S. destruct o as [st body|st|].
  3:{ right; right; left. destruct S; reflexivity. }
  2:{ destruct (is2xx st) eqn:I.
      - right; right; left. destruct S; simpl; rewrite I; reflexivity.
      - right; right; right; right. exists st. split; [reflexivity|].
        split; [exact I|]. destruct S; simpl; rewrite I; reflexivity. }
  destruct (is2xx st) eqn:I.
  2:{ right; right; right; left. exists st, body. split; [reflexivity|].
      split; [exact I|]. destruct S; simpl; rewrite I; reflexivity. }
  destruct (CWA.records body) as [records|] eqn:R.
  2:{ right; right; left. destruct S; simpl; rewrite I, R; reflexivity. }
  destruct (CWA.location records) as [[|l rest]|] eqn:L;
    try (right; left; destruct S; eexists; exists st, body, records;
         (split; [simpl; rewrite I, R, L; reflexivity|]);
         rewrite L; auto).
  assert (F : forall missing,
            (exists d, settle (first_location_result missing (Reply st body))
                       = Ok (mkRes 200 (Success d))) \/
            settle (first_location_result missing (Reply st body))
            = Ok (mkRes 500 (Failure "伺服器錯誤" "無法取得天氣資料，請稍後再試" None))).
  { intros missing. simpl. rewrite I, R, L.
    destruct (parseWeatherElements (CWA.weatherElement l)) as [fs|x] eqn:P.
    - left. eexists. reflexivity.
    - right. apply parse_throws in P. subst x. reflexivity. }
  destruct S as [|p name D A|].
  - destruct (F "無法取得高雄市天氣資料") as [(d & E)|E];
      [left; exists d, st, body; auto | right; right; left; exact E].
  - destruct (F ("無法取得 " ++ name ++ " 天氣資料")%string) as [(d & E)|E];
      [left; exists d, st, body; auto | right; right; left; exact E].
  - unfold all_locations_result. rewrite I, R, L.
    destruct (map_throwing _ (l :: rest)) as [ws|x] eqn:M.
    + left. exists (Many ws), st, body. auto.
    + right; right; left.
      apply map_throwing_throws in M;
        [subst x; reflexivity | intros a y; apply buildLocationWeather_throws].
Qed.

(** ** X1 *)


(** ** X2 *)

(** X2: a request reaches the upstream only with a non-empty API key, which
    it carries as [Authorization], and only for the empty region filter or
    for a name of the allow-list: no other text of a path parameter is ever
    forwarded. *)
Theorem upstream_requests_allowed (key : option string) (route : Route)
    (w : World) (q : Query) :
  In q (fst (app key route w)) ->
  JS.truthy key = true /\ Authorization q = key /\
  (locationName q = "" \/ In (locationName q) ALLOWED_CITY_NAMES).
Proof.
  intros H. destruct (app_log _ _ _ _ H) as (T & name & f & S & ->).
  split; [exact T|]. split; [reflexivity|]. simpl. eapply Sends_name; eauto.
Qed.

Lemma upstream_requests_allowed_witness :
  JS.truthy (Some "CWA-KEY") = true /\
  Authorization (mkQuery (Some "CWA-KEY") "臺北市") = Some "CWA-KEY" /\
  (locationName (mkQuery (Some "CWA-KEY") "臺北市") = "" \/
   In (locationName (mkQuery (Some "CWA-KEY") "臺北市")) ALLOWED_CITY_NAMES).
Proof.
  apply (upstream_requests_allowed (Some "CWA-KEY")
           (WeatherCity (Some "%E8%87%BA%E5%8C%97%E5%B8%82")) silent).
  left. reflexivity.
Defined.

(** ** X3 *)

(** X3: the envelope and the status agree.  An error payload never goes out
    with status 200; success data go out only with status 200, and only
    after one request that the upstream answered 2xx. *)
Theorem envelope_matches_status (key : option string) (route : Route) (w : World)
    (log : list Query) (res : Res) :
  app key route w = (log, Ok res) ->
  (forall e m d, json res = Failure e m d -> statusCode res <> 200) /\
  (forall d, json res = Success d ->
     statusCode res = 200 /\
     exists q st body,
       log = [q] /\ upstream w q = Reply st body /\ is2xx st = true).
Proof.
  intros H. destruct (app_cases key route w) as [(r & E & NS & NF)|(T & name & f & S)].
  - rewrite E in H. inversion H; subst. split; [exact NF|].
    intros d D. destruct (NS d D).
  - rewrite (app_sends _ _ _ _ w T S) in H. inversion H as [[L R]]. clear H.
    destruct (Sends_answer _ _ _ (upstream w (mkQuery key name)) S)
      as [(d & st & body & E & U & I)
         |[(m & _ & _ & _ & E & _)
          |[E|[(st & body & U & I & E)|(st & _ & _ & E)]]]];
      rewrite E in R; inversion R; subst res; simpl; split; try discriminate.
    + intros d' _. split; [reflexivity|]. exists (mkQuery key name), st, body. auto.
    + intros e m d _ C. subst st. discriminate I.
Qed.

Lemma envelope_matches_status_witness :
  200 = 200 /\
  exists q st body,
    [mkQuery (Some "CWA-KEY") ""] = [q] /\
    upstream (answering 200 (dataset [taipei])) q = Reply st body /\
    is2xx st = true.
Proof.
  apply (proj2 (envelope_matches_status (Some "CWA-KEY") WeatherAll
                  (answering 200 (dataset [taipei]))
                  [mkQuery (Some "CWA-KEY") ""]
                  (mkRes 200
                     (Success
                        (Many [mkLocationWeather (Some "臺北市")
                                 (Some "三十六小時天氣預報")
                                 [record1 (Some "") (Some "") (Some "20°C")
                                    (Some "") (Some "") (Some "")]])))
                  eq_refl)
           (Many [mkLocationWeather (Some "臺北市") (Some "三十六小時天氣預報")
                    [record1 (Some "") (Some "") (Some "20°C") (Some "")
                       (Some "") (Some "")]])).
  reflexivity.
Defined.

(** ** X4 *)

(** X4: with the API key set, a path parameter that is not a well-formed
    percent-encoding makes [decodeURIComponent] throw inside the [try]
    block: the named-region handler answers 500 with the generic message,
    not the 400 validation error, and sends nothing to the upstream. *)
Theorem malformed_parameter (key p : option string) (x : Exn) (w : World) :
  JS.truthy key = true ->
  decodeURIComponent (JS.or_else p "") = Throw x ->
  getCityWeather key p w =
  ([], Ok (mkRes 500 (Failure "伺服器錯誤" "無法取得天氣資料，請稍後再試" None))).
Proof.
  intros T D. pose proof (decodeURIComponent_throws _ _ D); subst x.
  apply (getCityWeather_malformed _ _ _ T D).
Qed.

Lemma malformed_parameter_witness :
  getCityWeather (Some "CWA-KEY") (Some "高雄市%") silent =
  ([], Ok (mkRes 500 (Failure "伺服器錯誤" "無法取得天氣資料，請稍後再試" None))).
Proof.
  apply (malformed_parameter (Some "CWA-KEY") (Some "高雄市%") URIError silent);
    reflexivity.
Defined.

(** ** X5 *)

(** X5: the second decoding, the one the handler does, leaves a path
    parameter without percent sign as it is.  With the API key set, such a
    parameter is forwarded to the upstream unchanged, in one request, when it
    is a name of the allow-list, and answered 400 without any request when
    it is not. *)
Theorem plain_parameter (key : option string) (p : string) (w : World) :
  JS.truthy key = true -> plain p = true ->
  (In p ALLOWED_CITY_NAMES ->
   fst (getCityWeather key (Some p) w) = [mkQuery key p]) /\
  (~ In p ALLOWED_CITY_NAMES ->
   getCityWeather key (Some p) w =
   ([], Ok (mkRes 400
              (Failure "不支援的縣市"
                 ("請使用以下縣市名稱：" ++ join "、" ALLOWED_CITY_NAMES) None)))).
Proof.
  intros T P.
  assert (D : decodeURIComponent (JS.or_else (Some p) "") = Ok p).
  { rewrite or_else_empty. apply decode_plain, P. }
  split; intros I.
  - apply includes_In in I. rewrite (getCityWeather_run _ _ _ _ T D I).
    reflexivity.
  - apply includes_not_In in I. apply (getCityWeather_invalid _ _ _ _ T D I).
Qed.

Lemma plain_parameter_witness :
  fst (getCityWeather (Some "CWA-KEY") (Some "花蓮縣") silent)
  = [mkQuery (Some "CWA-KEY") "花蓮縣"] /\
  getCityWeather (Some "CWA-KEY") (Some "Hualien") silent =
  ([], Ok (mkRes 400
             (Failure "不支援的縣市"
                ("請使用以下縣市名稱：" ++ join "、" ALLOWED_CITY_NAMES) None))).
Proof.
  split.
  - apply (proj1 (plain_parameter (Some "CWA-KEY") "花蓮縣" silent
                    eq_refl eq_refl)).
    apply includes_In. reflexivity.
  - apply (proj2 (plain_parameter (Some "CWA-KEY") "Hualien" silent
                    eq_refl eq_refl)).
    apply includes_not_In. reflexivity.
Defined.

(** ** X6 *)

(** X6: the all-regions handler gives no partial answer.  If reshaping
    throws for one of the locations the upstream returned, the answer is the
    generic 500, whatever the other locations are, and no second request is
    sent. *)
Theorem all_or_nothing (key : option string) (w : World) (st : nat)
    (body : CWA.Body) (records : CWA.Records) (locations : list CWA.Location)
    (l : CWA.Location) (x : Exn) :
  JS.truthy key = true ->
  upstream w (mkQuery key "") = Reply st body -> is2xx st = true ->
  CWA.records body = Some records ->
  CWA.location records = Some locations ->
  In l locations ->
  parseWeatherElements (CWA.weatherElement l) = Throw x ->
  getAllCityWeather key w =
  ([mkQuery key ""],
   Ok (mkRes 500 (Failure "伺服器錯誤" "無法取得天氣資料，請稍後再試" None))).
Proof.
  intros T U S R L I P. rewrite (getAllCityWeather_run _ _ T), U.
  unfold all_locations_result. rewrite S, R, L.
  destruct locations as [|l0 rest]; [destruct I|].
  rewrite (map_throwing_In _ (l0 :: rest) l); [reflexivity | | exact I |].
  - intros a y. apply buildLocationWeather_throws.
  - unfold buildLocationWeather. rewrite P.
    apply parse_throws in P. subst x. reflexivity.
Qed.

Lemma all_or_nothing_witness :
  getAllCityWeather (Some "CWA-KEY")
    (answering 200 (dataset [taipei; ragged_location])) =
  ([mkQuery (Some "CWA-KEY") ""],
   Ok (mkRes 500 (Failure "伺服器錯誤" "無法取得天氣資料，請稍後再試" None))).
Proof.
  apply (all_or_nothing (Some "CWA-KEY")
           (answering 200 (dataset [taipei; ragged_location])) 200
           (dataset [taipei; ragged_location])
           (CWA.mkRecords (Some "三十六小時天氣預報")
              (Some [taipei; ragged_location]))
           [taipei; ragged_location] ragged_location TypeError);
    try reflexivity.
  right; left; reflexivity.
Defined.

(** ** X7 *)



(** ** X8 *)



(** ** X9 *)




(** ** X10 *)

(** X10: the names the root endpoint advertises are the names the
    named-region endpoint accepts: the list in the welcome payload has the
    same members as the allow-list, each of them once. *)
Theorem advertised_names (key : option string) (w : World) :
  exists message names endpoints,
    app key Root w = ([], Ok (mkRes 200 (Welcome message names endpoints))) /\
    NoDup names /\
    forall name, In name names <-> includes ALLOWED_CITY_NAMES name = true.
Proof.
  do 3 eexists. split; [reflexivity|]. split.
  - repeat (constructor;
            [simpl; intros H;
             repeat (destruct H as [H|H]; [discriminate H|]); exact H|]).
    constructor.
  - intros name. rewrite includes_In. reflexivity.
Qed.

(** ** X11 *)

Lemma append_assoc (a b c : string) : ((a ++ b) ++ c = a ++ (b ++ c))%string.
Proof. induction a as [|x a IH]; simpl; [reflexivity | rewrite IH; reflexivity]. Qed.

Lemma append_empty_r (a : string) : (a ++ "" = a)%string.
Proof. induction a as [|x a IH]; simpl; [reflexivity | rewrite IH; reflexivity]. Qed.

(** Every member of a joined array occurs in the joined string. *)
Lemma join_occurs (sep : string) (l : list string) (x : string) :
  In x l -> occurs x (join sep l).
Proof.
  induction l as [|y l IH]; intros I; [destruct I|].
  destruct I as [->|I].
  - destruct l as [|z l].
    + exists "", "". simpl. rewrite append_empty_r. reflexivity.
    + exists "", (sep ++ join sep (z :: l))%string. reflexivity.
  - destruct l as [|z l]; [destruct I|].
    destruct (IH I) as (pre & post & E).
    exists (y ++ sep ++ pre)%string, post.
    change (join sep (y :: z :: l)) with (y ++ sep ++ join sep (z :: l))%string.
    rewrite E, !append_assoc. reflexivity.
Qed.

(** X11: the message of the 400 validation error names every region of the
    allow-list. *)
Theorem validation_message_names_all (key p : option string) (name : string)
    (w : World) :
  JS.truthy key = true ->
  decodeURIComponent (JS.or_else p "") = Ok name ->
  ~ In name ALLOWED_CITY_NAMES ->
  exists message,
    getCityWeather key p w =
    ([], Ok (mkRes 400 (Failure "不支援的縣市" message None))) /\
    forall region, In region ALLOWED_CITY_NAMES -> occurs region message.
Proof.
  intros T D I. apply includes_not_In in I.
  rewrite (getCityWeather_invalid _ _ _ _ T D I).
  eexists. split; [reflexivity|]. intros region R.
  destruct (join_occurs "、" ALLOWED_CITY_NAMES region R) as (pre & post & E).
  exists ("請使用以下縣市名稱：" ++ pre)%string, post.
  rewrite E, append_assoc. reflexivity.
Qed.

Lemma validation_message_names_all_witness :
  exists message,
    getCityWeather (Some "CWA-KEY") (Some "台北市") silent =
    ([], Ok (mkRes 400 (Failure "不支援的縣市" message None))) /\
    forall region, In region ALLOWED_CITY_NAMES -> occurs region message.
Proof.
  apply (validation_message_names_all (Some "CWA-KEY") (Some "台北市") "台北市"
           silent).
  - reflexivity.
  - reflexivity.
  - apply includes_not_In. reflexivity.
Defined.

(** ** Assignments of the [switch] *)

Lemma assign_assign (k : Kind) (f : Forecast) (n m : option string) :
  assign k (assign k f n) m = assign k f m.
Proof. destruct k; reflexivity. Qed.

Lemma assign_comm (k k' : Kind) (f : Forecast) (n m : option string) :
  k <> k' -> assign k (assign k' f m) n = assign k' (assign k f n) m.
Proof. destruct k, k'; intros H; try reflexivity; congruence. Qed.

Lemma forEach_cons (i : nat) (e : CWA.Element) (els : list CWA.Element)
    (f : Forecast) :
  forEach i (e :: els) f = (f' <- visit i f e ;; forEach i els f').
Proof. reflexivity. Qed.

(** ** X12 *)

(** A later element of kind [k] overwrites what an earlier one assigned. *)
Lemma forEach_overwritten (k : Kind) (i : nat) (ys : list CWA.Element) :
  (exists e', In e' ys /\ CWA.elementName e' = Some (label k)) ->
  forall f n, forEach i ys (assign k f n) = forEach i ys f.
Proof.
  induction ys as [|y ys IH]; intros (e' & I & K) f n; [destruct I|].
  rewrite !forEach_cons, !visit_unfold.
  destruct (entry_at y i) as [en|]; [|reflexivity].
  destruct (kind_of (CWA.elementName y)) as [k1|] eqn:Ky.
  - destruct (CWA.parameter en) as [v|]; [|reflexivity]. simpl.
    assert (D : k1 = k \/ k1 <> k) by (destruct k1, k; auto; right; discriminate).
    destruct D as [->|D]; [rewrite assign_assign; reflexivity|].
    rewrite assign_comm by exact D. apply IH.
    destruct I as [->|I]; [|eauto].
    apply kind_of_Some in K. congruence.
  - simpl. apply IH. destruct I as [->|I]; [|eauto].
    apply kind_of_Some in K. congruence.
Qed.

Lemma forEach_drop (k : Kind) (i : nat) (xs ys : list CWA.Element)
    (e : CWA.Element) (f : Forecast) :
  CWA.elementName e = Some (label k) ->
  (exists e', In e' ys /\ CWA.elementName e' = Some (label k)) ->
  (exists en v, entry_at e i = Some en /\ CWA.parameter en = Some v) ->
  forEach i (xs ++ e :: ys) f = forEach i (xs ++ ys) f.
Proof.
  intros K L (en & v & E & P). rewrite !forEach_app.
  destruct (forEach i xs f) as [f'|x]; simpl; [|reflexivity].
  apply kind_of_Some in K. rewrite visit_unfold, E, K, P. simpl.
  apply forEach_overwritten, L.
Qed.

(** X12: the last element of a kind wins.  An element of a recognized
    kind that is not the first of the array, is followed by another element
    of the same kind and has an entry with a parameter at every slot below
    [timeCount], can be removed without changing the result. *)
Theorem reshaper_last_wins (pre post : list CWA.Element) (e : CWA.Element)
    (k : Kind) :
  pre <> [] ->
  CWA.elementName e = Some (label k) ->
  (exists e', In e' post /\ CWA.elementName e' = Some (label k)) ->
  (forall i, i < timeCount (Some (pre ++ post)) ->
     exists en v, entry_at e i = Some en /\ CWA.parameter en = Some v) ->
  parseWeatherElements (Some (pre ++ e :: post))
  = parseWeatherElements (Some (pre ++ post)).
Proof.
  intros P K L T. destruct pre as [|first pre]; [congruence|].
  unfold parseWeatherElements. rewrite <- !app_comm_cons in *.
  rewrite !timeCount_cons. rewrite timeCount_cons in T.
  apply for_loop_ext. intros j Hj. simpl in Hj |- *.
  rewrite !slot_cons. destruct (entry_at first j); [|reflexivity].
  rewrite !app_comm_cons.
  apply (forEach_drop k j (first :: pre) post e); auto.
Qed.

Lemma reshaper_last_wins_witness :
  parseWeatherElements
    (Some ([element1 "Wx" (Some "晴")] ++
           element1 "PoP" (Some "10") :: [element1 "PoP" (Some "90")]))
  = parseWeatherElements
      (Some ([element1 "Wx" (Some "晴")] ++ [element1 "PoP" (Some "90")])).
Proof.
  apply (reshaper_last_wins [element1 "Wx" (Some "晴")]
           [element1 "PoP" (Some "90")] (element1 "PoP" (Some "10")) PoP).
  - discriminate.
  - reflexivity.
  - exists (element1 "PoP" (Some "90")). split; [left|]; reflexivity.
  - intros i Hi. simpl in Hi. assert (i = 0) by lia. subst i.
    do 2 eexists. split; reflexivity.
Defined.

(** ** X13 *)

Lemma visit_swap (i : nat) (f : Forecast) (x y : CWA.Element) :
  (forall k, kind_of (CWA.elementName x) = Some k ->
             kind_of (CWA.elementName y) <> Some k) ->
  (f1 <- visit i f x ;; visit i f1 y) = (f2 <- visit i f y ;; visit i f2 x).
Proof.
  intros D. rewrite (visit_unfold i f x), (visit_unfold i f y).
  destruct (entry_at x i) as [ex|] eqn:Ex;
    destruct (entry_at y i) as [ey|] eqn:Ey;
    destruct (kind_of (CWA.elementName x)) as [kx|] eqn:Kx;
    destruct (kind_of (CWA.elementName y)) as [ky|] eqn:Ky;
    repeat match goal with
           | |- context [CWA.parameter ?e] => destruct (CWA.parameter e) eqn:?
           end;
    simpl; rewrite ?visit_unfold;
    repeat match goal with
           | H : ?l = _ |- context [?l] => rewrite H
           end;
    try reflexivity.
  f_equal. apply assign_comm. intros ->. apply (D kx); reflexivity.
Qed.

Lemma kinds_cons (e : CWA.Element) (els : list CWA.Element) :
  kinds (e :: els) =
  match kind_of (CWA.elementName e) with
  | Some k => k :: kinds els
  | None => kinds els
  end.
Proof.
  unfold kinds. simpl. destruct (kind_of (CWA.elementName e)); reflexivity.
Qed.

Lemma NoDup_kinds_tail (e : CWA.Element) (els : list CWA.Element) :
  NoDup (kinds (e :: els)) -> NoDup (kinds els).
Proof.
  rewrite kinds_cons. destruct (kind_of (CWA.elementName e)); [|auto].
  intros H. inversion H; assumption.
Qed.

Lemma forEach_Permutation (i : nat) (l l' : list CWA.Element) :
  Permutation l l' -> NoDup (kinds l) ->
  forall f, forEach i l f = forEach i l' f.
Proof.
  induction 1 as [|x l l' P IH|x y l|l l' l'' P1 IH1 P2 IH2]; intros N f.
  - reflexivity.
  - rewrite !forEach_cons. destruct (visit i f x); simpl; [|reflexivity].
    apply IH. eapply NoDup_kinds_tail; eauto.
  - rewrite !forEach_cons.
    assert (S : (f1 <- visit i f y ;; visit i f1 x)
                = (f2 <- visit i f x ;; visit i f2 y)).
    { apply visit_swap. intros k Ky Kx.
      rewrite !kinds_cons, Ky, Kx in N. inversion N as [|? ? Hn _].
      apply Hn. left; reflexivity. }
    destruct (visit i f y) as [fy|ey]; destruct (visit i f x) as [fx|ex];
      simpl in *.
    + destruct (visit i fy x) as [a|a]; destruct (visit i fx y) as [b|b];
        simpl; congruence.
    + destruct (visit i fy x) as [a|a]; simpl; congruence.
    + destruct (visit i fx y) as [b|b]; simpl; congruence.
    + congruence.
  - rewrite IH1 by exact N. apply IH2.
    eapply Permutation_NoDup; [|exact N].
    unfold kinds. apply Permutation_flat_map, P1.
Qed.

(** X13: apart from the first element, which gives the time axis, the
    order of the elements does not matter when no two of them are of the same
    recognized kind: the reshaper gives the same result, records or error,
    on any rearrangement of the others. *)
Theorem reshaper_order_irrelevant (first : CWA.Element)
    (rest rest' : list CWA.Element) :
  Permutation rest rest' -> NoDup (kinds rest) ->
  parseWeatherElements (Some (first :: rest))
  = parseWeatherElements (Some (first :: rest')).
Proof.
  intros P N. unfold parseWeatherElements. rewrite !timeCount_cons.
  apply for_loop_ext. intros j Hj. simpl. rewrite !slot_cons.
  destruct (entry_at first j) as [en|]; [|reflexivity].
  rewrite !forEach_cons. destruct (visit j _ first); simpl; [|reflexivity].
  apply forEach_Permutation; assumption.
Qed.

Lemma reshaper_order_irrelevant_witness :
  parseWeatherElements
    (Some (element1 "Wx" (Some "晴")
           :: [element1 "PoP" (Some "10"); element1 "MinT" (Some "20")]))
  = parseWeatherElements
      (Some (element1 "Wx" (Some "晴")
             :: [element1 "MinT" (Some "20"); element1 "PoP" (Some "10")])).
Proof.
  apply (reshaper_order_irrelevant (element1 "Wx" (Some "晴"))
           [element1 "PoP" (Some "10"); element1 "MinT" (Some "20")]
           [element1 "MinT" (Some "20"); element1 "PoP" (Some "10")]).
  - apply perm_swap.
  - vm_compute. constructor; [intros [H|[]]; discriminate H|].
    constructor; [intros []|constructor].
Defined.

(** ** X14 *)

Lemma visit_at_slot (i : nat) (f : Forecast) (x y : CWA.Element) :
  at_slot i x = at_slot i y -> visit i f x = visit i f y.
Proof.
  unfold at_slot. intros H. inversion H as [[N E]].
  rewrite !visit_unfold, N, E. reflexivity.
Qed.

Lemma forEach_at_slot (i : nat) (els : list CWA.Element) :
  forall els', map (at_slot i) els = map (at_slot i) els' ->
  forall f, forEach i els f = forEach i els' f.
Proof.
  induction els as [|x els IH]; intros [|y els'] H f; try discriminate H.
  - reflexivity.
  - simpl in H. injection H as A B C.
    rewrite !forEach_cons, (visit_at_slot i f x y).
    + destruct (visit i f y); simpl; [|reflexivity].
      apply IH. exact C.
    + unfold at_slot. rewrite A, B. reflexivity.
Qed.

Lemma slot_at_slot (i : nat) (els els' : list CWA.Element) :
  map (at_slot i) els = map (at_slot i) els' ->
  slot (Some els) i = slot (Some els') i.
Proof.
  intros H. destruct els as [|x els]; destruct els' as [|y els'];
    try discriminate H; [reflexivity|].
  rewrite !slot_cons.
  assert (E : entry_at x i = entry_at y i).
  { simpl in H. unfold at_slot in H. inversion H; reflexivity. }
  rewrite E. destruct (entry_at y i); [|reflexivity].
  apply forEach_at_slot, H.
Qed.

(** X14: the record of slot [i] depends on nothing but the names of the
    elements and their [i]-th time entries.  Two arrays that agree on those
    give the same [i]-th record, whatever their other slots hold. *)
Theorem reshaper_slot_local (els els' : list CWA.Element)
    (recs recs' : list Forecast) (i : nat) (r : Forecast) :
  map (at_slot i) els = map (at_slot i) els' ->
  parseWeatherElements (Some els) = Ok recs ->
  parseWeatherElements (Some els') = Ok recs' ->
  nth_error recs i = Some r ->
  nth_error recs' i = Some r.
Proof.
  intros A H H' N.
  destruct (parse_Ok _ _ H) as (L & S). destruct (parse_Ok _ _ H') as (L' & S').
  assert (Hi : i < timeCount (Some els)).
  { rewrite <- L. apply nth_error_Some. congruence. }
  destruct (S i Hi) as (r0 & N0 & B).
  assert (r0 = r) by congruence. subst r0.
  rewrite (slot_at_slot i els els' A) in B.
  assert (Hi' : i < timeCount (Some els')).
  { destruct (slot_Ok _ _ _ B) as (first & rest & en & E & En & _).
    inversion E; subst. rewrite timeCount_cons.
    destruct (le_lt_dec (time_length first) i) as [C|C]; [|exact C].
    apply entry_at_None in C. congruence. }
  destruct (S' i Hi') as (r' & N' & B'). congruence.
Qed.

Lemma reshaper_slot_local_witness :
  nth_error
    [record1 (Some "") (Some "") (Some "20°C") (Some "") (Some "") (Some "");
     mkForecast None None (Some "") (Some "") (Some "25°C") (Some "") (Some "")
       (Some "")] 0
  = Some (record1 (Some "") (Some "") (Some "20°C") (Some "") (Some "") (Some "")).
Proof.
  apply (reshaper_slot_local
           [element1 "MinT" (Some "20")]
           [CWA.mkElement (Some "MinT")
              (Some [entry1 (Some "20");
                     CWA.mkTime None None (Some (CWA.mkParameter (Some "25")))])]
           [record1 (Some "") (Some "") (Some "20°C") (Some "") (Some "") (Some "")]
           _ 0);
    reflexivity.
Defined.

(** ** X15 *)



(** ** X16 *)

(** X16: the arrays on which the reshaper returns are exactly those in
    which every element, of whatever kind, has an entry at each slot below
    [timeCount], and every element of a recognized kind has a [parameter]
    there; on every other array it throws. *)
Theorem reshaper_returns_iff (elements : list CWA.Element) :
  (exists recs, parseWeatherElements (Some elements) = Ok recs)
  <-> covered elements.
Proof.
  split.
  - intros (recs & H). eapply parse_Ok_covered; eauto.
  - apply covered_total.
Qed.
